(** * Daily notes generator: a shallow embedding of [daily_notes_generator.py]

    The development follows the Python module function by function:
    [get_all_notes], [extract_undone_todos], [aggregate_todos] and
    [create_daily_note], together with the parts of the Python library they
    call ([datetime.date], [datetime.strptime], [str.splitlines],
    [pathlib.Path.stem], [pathlib.Path.glob]).

    - A Python [str] is a list of code points ([pystr]).
    - A [datetime.date] is a record of year, month and day; its ordinal
      arithmetic follows CPython's [_ymd2ord] and [_ord2ymd].
    - The notes directory is a finite map from file names to nodes; the
      functions that touch it run in a state-and-exception monad whose state
      also records the trace of file-system operations. *)

From Stdlib Require Import ZArith NArith Ascii String Lia.
From stdpp Require Import base decidable option list gmap sorting.

Local Open Scope Z_scope.

#[local] Set Warnings "-clear-no-such-hyp".

(** ** Python strings *)

Abbreviation pystr := (list N).

(** The code points of an ASCII literal. *)
Definition py (s : string) : pystr :=
  map N_of_ascii (list_ascii_of_string s).

Definition LF : N := 10%N.
Definition CR : N := 13%N.
Definition HYPHEN : N := 45%N.
Definition SPACE : N := 32%N.
Definition DOT : N := 46%N.

(** [s.startswith(p)], returning the rest of [s] after the prefix. *)
Fixpoint strip_prefix (p s : pystr) : option pystr :=
  match p, s with
  | [], _ => Some s
  | _ :: _, [] => None
  | a :: p', b :: s' => if N.eqb a b then strip_prefix p' s' else None
  end.

(** Code-point order on strings, the order of [str.__lt__]. *)
Fixpoint str_ltb (s1 s2 : pystr) : bool :=
  match s1, s2 with
  | _, [] => false
  | [], _ :: _ => true
  | a :: s1', b :: s2' =>
      if N.ltb a b then true
      else if N.eqb a b then str_ltb s1' s2' else false
  end.

(** ** [datetime.date] *)

Record date := mkdate { year : Z; month : Z; day : Z }.

Global Instance date_eq_dec : EqDecision date.
Proof. solve_decision. Defined.

Definition MINYEAR : Z := 1.
Definition MAXYEAR : Z := 9999.
Definition _MAXORDINAL : Z := 3652059.

Definition _DAYS_IN_MONTH : list Z :=
  [-1; 31; 28; 31; 30; 31; 30; 31; 31; 30; 31; 30; 31].
Definition _DAYS_BEFORE_MONTH : list Z :=
  [-1; 0; 31; 59; 90; 120; 151; 181; 212; 243; 273; 304; 334].

(** Table lookup [table[i]] for an index that is in range. *)
Definition tbl (table : list Z) (i : Z) : Z := nth (Z.to_nat i) table 0.

Definition _is_leap (y : Z) : bool :=
  (y mod 4 =? 0) && (negb (y mod 100 =? 0) || (y mod 400 =? 0)).

Definition _days_before_year (y : Z) : Z :=
  let y := y - 1 in y * 365 + y / 4 - y / 100 + y / 400.

Definition _days_in_month (y m : Z) : Z :=
  if (m =? 2) && _is_leap y then 29 else tbl _DAYS_IN_MONTH m.

Definition _days_before_month (y m : Z) : Z :=
  tbl _DAYS_BEFORE_MONTH m + (if (2 <? m) && _is_leap y then 1 else 0).

(** The check of the [date] constructor ([_check_date_fields]). *)
Definition valid_dateb (y m d : Z) : bool :=
  (MINYEAR <=? y) && (y <=? MAXYEAR) && (1 <=? m) && (m <=? 12)
  && (1 <=? d) && (d <=? _days_in_month y m).

Definition valid_date (d : date) : Prop :=
  valid_dateb (year d) (month d) (day d) = true.

Definition _ymd2ord (y m d : Z) : Z :=
  _days_before_year y + _days_before_month y m + d.

Definition toordinal (d : date) : Z := _ymd2ord (year d) (month d) (day d).

Definition _DI400Y : Z := 146097.
Definition _DI100Y : Z := 36524.
Definition _DI4Y : Z := 1461.

(** The month and day of the [n]-th day (from 0) of a year. *)
Definition _ord2md (leapyear : bool) (n : Z) : Z * Z :=
  let month := Z.shiftr (n + 50) 5 in
  let preceding :=
    tbl _DAYS_BEFORE_MONTH month + (if (2 <? month) && leapyear then 1 else 0) in
  if n <? preceding then
    let month := month - 1 in
    let preceding :=
      preceding
      - (tbl _DAYS_IN_MONTH month + (if (month =? 2) && leapyear then 1 else 0)) in
    (month, n - preceding + 1)
  else (month, n - preceding + 1).

Definition _ord2ymd (n : Z) : date :=
  let n := n - 1 in
  let n400 := n / _DI400Y in
  let n := n mod _DI400Y in
  let y := n400 * 400 + 1 in
  let n100 := n / _DI100Y in
  let n := n mod _DI100Y in
  let n4 := n / _DI4Y in
  let n := n mod _DI4Y in
  let n1 := n / 365 in
  let n := n mod 365 in
  let y := y + n100 * 100 + n4 * 4 + n1 in
  if (n1 =? 4) || (n100 =? 4) then mkdate (y - 1) 12 31
  else
    let leapyear := (n1 =? 3) && (negb (n4 =? 24) || (n100 =? 3)) in
    let '(m, d) := _ord2md leapyear n in
    mkdate y m d.

Definition fromordinal (n : Z) : date := _ord2ymd n.

(** [date.__lt__] and [date.__le__] compare (year, month, day) triples. *)
Definition date_ltb (a b : date) : bool :=
  (year a <? year b)
  || ((year a =? year b)
      && ((month a <? month b)
          || ((month a =? month b) && (day a <? day b)))).

Definition date_leb (a b : date) : bool :=
  date_ltb a b || bool_decide (a = b).

(** [d - timedelta(days=n)]: [None] stands for [OverflowError]. *)
Definition date_sub_days (d : date) (n : Z) : option date :=
  let o := toordinal d - n in
  if (0 <? o) && (o <=? _MAXORDINAL) then Some (fromordinal o) else None.

(** The character of a decimal digit. *)
Definition digit_char (v : Z) : N := Z.to_N (48 + v).

(** The zero-padded text of a date: the year on four digits, the month and
    the day on two, with hyphens between them. *)
Definition padded_Ymd (d : date) : pystr :=
  [ digit_char (year d / 1000 mod 10); digit_char (year d / 100 mod 10);
    digit_char (year d / 10 mod 10); digit_char (year d mod 10);
    HYPHEN;
    digit_char (month d / 10 mod 10); digit_char (month d mod 10);
    HYPHEN;
    digit_char (day d / 10 mod 10); digit_char (day d mod 10) ].

(** [%Y] as the C library of Linux (glibc) gives it to Python: the year of
    a date (1 to 9999) in decimal with no padding, so on four digits from the
    year 1000 on and on fewer before. *)
Definition year_text (y : Z) : pystr :=
  if y <? 10 then [digit_char (y mod 10)]
  else if y <? 100 then [digit_char (y / 10 mod 10); digit_char (y mod 10)]
  else if y <? 1000 then
    [digit_char (y / 100 mod 10); digit_char (y / 10 mod 10);
     digit_char (y mod 10)]
  else
    [digit_char (y / 1000 mod 10); digit_char (y / 100 mod 10);
     digit_char (y / 10 mod 10); digit_char (y mod 10)].

(** [d.strftime("%Y-%m-%d")]: the year as [%Y] gives it, the month and the
    day on two digits.  It is the zero-padded text from the year 1000 on;
    [date(999, 1, 1)] gives [999-01-01]. *)
Definition strftime_Ymd (d : date) : pystr :=
  year_text (year d)
  ++ [ HYPHEN;
       digit_char (month d / 10 mod 10); digit_char (month d mod 10);
       HYPHEN;
       digit_char (day d / 10 mod 10); digit_char (day d mod 10) ].

(** ** [datetime.strptime(s, "%Y-%m-%d")]

    CPython turns the format into the regular expression
    [(?P<Y>\d\d\d\d)-(?P<m>1[0-2]|0[1-9]|[1-9])-(?P<d>3[0-1]|[1-2]\d|0[1-9]|[1-9]| [1-9])],
    matches it at the start of the string, rejects the string when the match
    does not reach its end, converts the groups with [int] and builds the
    date, whose constructor rejects a year, month or day out of range.  Every
    failure is a [ValueError]; here it is [None].

    [\d] matches every Unicode decimal digit.  The ASCII digits are spelled
    out; the decimal value of the digits beyond ASCII is the table of the
    Unicode database, which is a parameter of the development. *)

Definition orelse {A} (x y : option A) : option A :=
  match x with Some _ => x | None => y end.

Definition in_range (lo hi c : N) : bool := (N.leb lo c && N.leb c hi)%N.

(** The value of an ASCII digit between the characters [lo] and [hi]. *)
Definition ascii_digit (lo hi : N) (c : N) : option Z :=
  if in_range lo hi c then Some (Z.of_N c - 48) else None.

Section Strptime.
(** Decimal value of the decimal digits outside ASCII. *)
Variable unicode_digit : N → option Z.

(** [\d], with the value [int] gives to the character. *)
Definition re_digit (c : N) : option Z :=
  if in_range 48 57 c then Some (Z.of_N c - 48)
  else if N.ltb c 128 then None
  else unicode_digit c.

(** [\d\d\d\d] *)
Definition re_Y (s : pystr) : option (Z * pystr) :=
  match s with
  | a :: b :: c :: d :: rest =>
      a ← re_digit a; b ← re_digit b; c ← re_digit c; d ← re_digit d;
      Some (a * 1000 + b * 100 + c * 10 + d, rest)
  | _ => None
  end.

Definition re_hyphen (s : pystr) : option pystr :=
  match s with
  | c :: rest => if N.eqb c HYPHEN then Some rest else None
  | [] => None
  end.

(** Two characters taken by the classes [c1] and [c2]. *)
Definition re_two {R} (c1 c2 : N → option Z) (s : pystr)
    (k : Z → pystr → option R) : option R :=
  match s with
  | a :: b :: rest => a ← c1 a; b ← c2 b; k (a * 10 + b) rest
  | _ => None
  end.

Definition re_one {R} (c1 : N → option Z) (s : pystr)
    (k : Z → pystr → option R) : option R :=
  match s with
  | a :: rest => a ← c1 a; k a rest
  | _ => None
  end.

(** A space, then one character of the class [c1]. *)
Definition re_space_one {R} (c1 : N → option Z) (s : pystr)
    (k : Z → pystr → option R) : option R :=
  match s with
  | a :: b :: rest => if N.eqb a SPACE then b ← c1 b; k b rest else None
  | _ => None
  end.

(** [1[0-2]|0[1-9]|[1-9]]: the alternatives are tried in order, and the
    next one is tried when the rest of the pattern ([k]) fails. *)
Definition re_m {R} (s : pystr) (k : Z → pystr → option R) : option R :=
  orelse (re_two (ascii_digit 49 49) (ascii_digit 48 50) s k)
 (orelse (re_two (ascii_digit 48 48) (ascii_digit 49 57) s k)
         (re_one (ascii_digit 49 57) s k)).

(** [3[0-1]|[1-2]\d|0[1-9]|[1-9]| [1-9]] *)
Definition re_d {R} (s : pystr) (k : Z → pystr → option R) : option R :=
  orelse (re_two (ascii_digit 51 51) (ascii_digit 48 49) s k)
 (orelse (re_two (ascii_digit 49 50) re_digit s k)
 (orelse (re_two (ascii_digit 48 48) (ascii_digit 49 57) s k)
 (orelse (re_one (ascii_digit 49 57) s k)
         (re_space_one (ascii_digit 49 57) s k)))).

(** [(?P<m>...)-(?P<d>...)]: the month, the hyphen and the day. *)
Definition re_md (s : pystr) : option (Z * Z * pystr) :=
  re_m s (λ m s,
    s ← re_hyphen s;
    re_d s (λ d s, Some (m, d, s))).

(** The groups of the first match and the text left after it. *)
Definition strptime_match (s : pystr) : option (Z * Z * Z * pystr) :=
  '(y, s) ← re_Y s;
  s ← re_hyphen s;
  '(m, d, s) ← re_md s;
  Some (y, m, d, s).

Definition strptime_Ymd (s : pystr) : option date :=
  '(y, m, d, rest) ← strptime_match s;
  match rest with
  | [] => if valid_dateb y m d then Some (mkdate y m d) else None
  | _ :: _ => None   (* unconverted data remains *)
  end.
End Strptime.

(** The digit table that knows the ASCII digits only. *)
Definition no_unicode_digit : N → option Z := λ _, None.

(** ** [str.splitlines] *)

(** The line boundaries of [str.splitlines], besides the pair CR LF. *)
Definition is_linebreak (c : N) : bool :=
  (in_range 10 13 c || in_range 28 30 c || N.eqb c 133
   || N.eqb c 8232 || N.eqb c 8233)%N.

(** [cur] is the line being read, in reverse. *)
Fixpoint splitlines_from (cur : pystr) (s : pystr) : list pystr :=
  match s with
  | [] => match cur with [] => [] | _ :: _ => [rev cur] end
  | c :: s' =>
      if N.eqb c CR then
        match s' with
        | c' :: s'' =>
            if N.eqb c' LF then rev cur :: splitlines_from [] s''
            else rev cur :: splitlines_from [] s'
        | [] => rev cur :: splitlines_from [] s'
        end
      else if is_linebreak c then rev cur :: splitlines_from [] s'
      else splitlines_from (c :: cur) s'
  end.

Definition splitlines (s : pystr) : list pystr := splitlines_from [] s.

(** ** [pathlib]: names in the notes directory *)

(** [name.rfind(".")]: the index of the last dot. *)
Fixpoint rfind_dot (s : pystr) : option nat :=
  match s with
  | [] => None
  | c :: s' =>
      match rfind_dot s' with
      | Some i => Some (S i)
      | None => if N.eqb c DOT then Some 0%nat else None
      end
  end.

(** [Path.stem]: the name up to its last dot, when that dot is neither the
    first nor the last character. *)
Definition stem (name : pystr) : pystr :=
  match rfind_dot name with
  | Some i =>
      if bool_decide (0 < i < length name - 1)%nat then take i name else name
  | None => name
  end.

Definition MD_SUFFIX : pystr := Eval vm_compute in py ".md".

(** The names the pattern ["*.md"] selects. *)
Definition glob_md (name : pystr) : bool :=
  bool_decide (MD_SUFFIX `suffix_of` name).

(** ** The notes directory and the effects of the program *)

(** What a name in the notes directory stands for: a file whose bytes
    [read_text] reads and decodes to the text [content], or an entry it fails
    on (a directory, a file that may not be read, bytes that are not UTF-8).
    The translation of CR LF and CR to a line feed that text mode does on
    reading changes nothing to the lines [str.splitlines] finds. *)
Inductive node :=
  | Text (content : pystr)
  | Unreadable.

Inductive event :=
  | EvExists (name : pystr)
  | EvGlob
  | EvRead (name : pystr)
  | EvMkdir
  | EvWrite (name : pystr) (body : pystr).

Inductive exn :=
  | OverflowError
  | ReadError (name : pystr)
  | WriteError.

(** [notes_dir] is [None] while the directory does not exist.  [mkdir_ok] and
    [write_ok] say whether the system lets the directory be created and a
    file in it be written.  [failed_write] says how a refused write ends:
    [None] when [open] itself is refused, and the node the file is left as
    when the refusal comes after [open] has created it (an empty file, or
    the part of the text that was written).  [today] is the date of the
    clock. *)
Record world := mkworld {
  notes_dir : option (gmap pystr node);
  mkdir_ok : bool;
  write_ok : bool;
  failed_write : option node;
  today : date;
  trace : list event
}.

Definition entries (w : world) : gmap pystr node := default ∅ (notes_dir w).

Definition log (e : event) (w : world) : world :=
  mkworld (notes_dir w) (mkdir_ok w) (write_ok w) (failed_write w) (today w)
    (trace w ++ [e]).

Definition set_dir (m : gmap pystr node) (w : world) : world :=
  mkworld (Some m) (mkdir_ok w) (write_ok w) (failed_write w) (today w)
    (trace w).

Inductive result (A : Type) :=
  | Ok (a : A)
  | Raise (e : exn).
Global Arguments Ok {A} a.
Global Arguments Raise {A} e.

(** Computations that read and change the world and may raise. *)
Definition M (A : Type) : Type := world → result A * world.

Definition ret {A} (a : A) : M A := λ w, (Ok a, w).
Definition raise {A} (e : exn) : M A := λ w, (Raise e, w).
Definition bind {A B} (m : M A) (k : A → M B) : M B :=
  λ w, match m w with
       | (Ok a, w') => k a w'
       | (Raise e, w') => (Raise e, w')
       end.

Declare Scope io_scope.
Delimit Scope io_scope with io.
Notation "'do' x <- m ; k" := (bind m (λ x, k))
  (at level 10, x name, m at level 100, k at level 200) : io_scope.
Notation "'run' m ; k" := (bind m (λ _, k))
  (at level 10, m at level 100, k at level 200) : io_scope.
Local Open Scope io_scope.

(** [fname.exists()] *)
Definition path_exists (name : pystr) : M bool :=
  λ w, (Ok (bool_decide (is_Some (entries w !! name))), log (EvExists name) w).

(** [directory.glob("*.md")], in the order the system lists the entries. *)
Definition glob_notes : M (list pystr) :=
  λ w, (Ok (filter (λ n, glob_md n = true) (map_to_list (entries w)).*1),
        log EvGlob w).

(** [note_path.read_text(encoding='utf-8')] *)
Definition read_text (name : pystr) : M pystr :=
  λ w, match entries w !! name with
       | Some (Text t) => (Ok t, log (EvRead name) w)
       | _ => (Raise (ReadError name), log (EvRead name) w)
       end.

(** [notes_dir.mkdir(parents=True, exist_ok=True)] *)
Definition mkdir_p : M unit :=
  λ w, match notes_dir w with
       | Some _ => (Ok (), log EvMkdir w)
       | None =>
           if mkdir_ok w then (Ok (), log EvMkdir (set_dir ∅ w))
           else (Raise WriteError, log EvMkdir w)
       end.

(** [with open(fname, 'w', encoding='utf-8') as f: f.write(body)]: [open]
    creates the file, or empties the one that is there, before the text is
    written; a write refused after that leaves the file behind. *)
Definition write_text (name body : pystr) : M unit :=
  λ w, match notes_dir w with
       | Some m =>
           if write_ok w
           then (Ok (), log (EvWrite name body) (set_dir (<[name := Text body]> m) w))
           else
             match failed_write w with
             | Some remains =>
                 (Raise WriteError,
                  log (EvWrite name body) (set_dir (<[name := remains]> m) w))
             | None => (Raise WriteError, log (EvWrite name body) w)
             end
       | None => (Raise WriteError, log (EvWrite name body) w)
       end.

(** [datetime.now().date()] *)
Definition now_date : M date := λ w, (Ok (today w), w).

(** The value of a call of [create_daily_note]: both of its [return]s give
    [None]; a boolean is the value the specification speaks of. *)
Inductive pyvalue :=
  | PyNone
  | PyBool (b : bool).

(** ** The program *)

Definition TODO_PREFIX : pystr := Eval vm_compute in py "- [ ] ".

(** [(.+)]: the longest run of characters other than a line feed, which
    must not be empty. *)
Fixpoint upto_LF (s : pystr) : pystr :=
  match s with
  | [] => []
  | c :: s' => if N.eqb c LF then [] else c :: upto_LF s'
  end.

Definition re_dot_plus (s : pystr) : option pystr :=
  match upto_LF s with
  | [] => None
  | g => Some g
  end.

(** [TODO_PATTERN.match(line)], giving [match.group(1)]. *)
Definition TODO_PATTERN_match (line : pystr) : option pystr :=
  rest ← strip_prefix TODO_PREFIX line; re_dot_plus rest.

(** The loop of [extract_undone_todos] over the lines. *)
Definition scan_lines (lines : list pystr) : list pystr :=
  foldl (λ todos line,
           match TODO_PATTERN_match line with
           | Some g => todos ++ [g]
           | None => todos
           end) [] lines.

Definition extract_undone_todos (note_path : pystr) : M (list pystr) :=
  do text <- read_text note_path;
  ret (scan_lines (splitlines text)).

(** One turn of the inner loop of [aggregate_todos]. *)
Definition add_todo (st : gset pystr * list pystr) (todo : pystr)
    : gset pystr * list pystr :=
  if decide (todo ∈ st.1) then st else ({[todo]} ∪ st.1, st.2 ++ [todo]).

Fixpoint aggregate_loop (past_notes : list (date * pystr))
    (st : gset pystr * list pystr) : M (list pystr) :=
  match past_notes with
  | [] => ret st.2
  | (_, note) :: rest =>
      do found <- extract_undone_todos note;
      aggregate_loop rest (foldl add_todo st found)
  end.

Definition aggregate_todos (past_notes : list (date * pystr)) : M (list pystr) :=
  aggregate_loop past_notes (∅, []).

(** [(d1, p1) < (d2, p2)] on tuples of a date and a path of the directory. *)
Definition note_ltb (a b : date * pystr) : bool :=
  if bool_decide (a.1 = b.1) then str_ltb a.2 b.2 else date_ltb a.1 b.1.

(** The order [list.sort] merges by: [a] stays before [b] unless [b < a]. *)
Definition note_le (a b : date * pystr) : Prop := note_ltb b a = false.

Global Instance note_le_dec : RelDecision note_le.
Proof. intros a b. unfold note_le. apply _. Defined.

Section Generator.
Variable unicode_digit : N → option Z.

(** The loop of [get_all_notes] over the entries the glob gave. *)
Definition collect_notes (mds : list pystr) : list (date * pystr) :=
  foldl (λ notes md,
           match strptime_Ymd unicode_digit (stem md) with
           | Some note_date => notes ++ [(note_date, md)]
           | None => notes
           end) [] mds.

Definition get_all_notes : M (list (date * pystr)) :=
  do mds <- glob_notes;
  ret (merge_sort note_le (collect_notes mds)).

Definition in_last_week (one_week_ago note_date : date) (n : date * pystr) : bool :=
  date_leb one_week_ago n.1 && date_ltb n.1 note_date.

(** The text of the new note. *)
Definition render_body (note_date : date) (todos : list pystr) : pystr :=
  let body := py "# " ++ strftime_Ymd note_date ++ [LF; LF] in
  let body := body ++ py "## Tasks" ++ [LF] in
  let body :=
    match todos with
    | _ :: _ => foldl (λ body t, body ++ TODO_PREFIX ++ t ++ [LF]) body todos
    | [] => body ++ TODO_PREFIX ++ [LF]
    end in
  let body := body ++ [LF] in
  body ++ py "## Notes" ++ [LF] ++ py "- " ++ [LF].

Definition create_daily_note (note_date : option date) : M pyvalue :=
  do note_date <- match note_date with
                  | None => now_date
                  | Some d => ret d
                  end;
  let fname := strftime_Ymd note_date ++ MD_SUFFIX in
  do present <- path_exists fname;
  if present then ret PyNone
  else
    do one_week_ago <- match date_sub_days note_date 7 with
                       | Some d => ret d
                       | None => raise OverflowError
                       end;
    do all_notes <- get_all_notes;
    let recent_notes := filter (λ n, in_last_week one_week_ago note_date n = true) all_notes in
    do todos <- aggregate_todos recent_notes;
    let body := render_body note_date todos in
    run mkdir_p;
    run write_text fname body;
    ret PyNone.

End Generator.

(** ** [main]: the manual modes and the monitoring loop *)

Definition START_HOUR : Z := 6.

(** What [parser.parse_args()] gives: [args.create_now] and [args.date],
    which is [None] when the option is not on the command line. *)
Record args := mkargs { create_now : bool; date_arg : option pystr }.

Section Main.
Variable unicode_digit : N → option Z.

(** Whether the failure to read a name is a failure to decode its bytes: a
    [UnicodeDecodeError], which is a [ValueError], and not an [OSError]. *)
Variable decode_failure : pystr → bool.

(** The exceptions [except ValueError] catches.  [OverflowError] is an
    [ArithmeticError]; the failure of [mkdir] or [open] is an [OSError]. *)
Definition is_ValueError (e : exn) : bool :=
  match e with
  | ReadError name => decode_failure name
  | OverflowError => false
  | WriteError => false
  end.

(** [try: body  except ValueError: handler] *)
Definition try_except_ValueError {A} (body handler : M A) : M A :=
  λ w, match body w with
       | (Raise e, w') => if is_ValueError e then handler w' else (Raise e, w')
       | (Ok a, w') => (Ok a, w')
       end.

(** One turn of the loop [while True] of [main], for the reading [now] of
    the clock: the date and the hour of [datetime.now()]. *)
Definition monitor_step (now : date * Z) (last_run_date : option date)
    : M (option date) :=
  let last_run_date :=
    if decide (last_run_date = Some now.1) then last_run_date else Some now.1 in
  if START_HOUR <=? now.2 then
    do present <- path_exists (strftime_Ymd now.1 ++ MD_SUFFIX);
    if present then ret last_run_date
    else
      run create_daily_note unicode_digit (Some now.1);
      ret last_run_date
  else ret last_run_date.

(** The turns of the loop for the successive readings [clock]: the loop has
    no exit of its own, and an exception ends it. *)
Fixpoint monitor_loop (clock : list (date * Z)) (last_run_date : option date)
    : M (option date) :=
  match clock with
  | [] => ret last_run_date
  | now :: clock' =>
      do last_run_date <- monitor_step now last_run_date;
      monitor_loop clock' last_run_date
  end.

(** [main], with the readings of the clock the monitoring loop is run for.
    The [ValueError] of [strptime] on [args.date] goes to the handler, which
    prints and returns. *)
Definition main (a : args) (clock : list (date * Z)) : M pyvalue :=
  if create_now a then
    run create_daily_note unicode_digit None;
    ret PyNone
  else
    match date_arg a with
    | Some (c :: s) =>
        match strptime_Ymd unicode_digit (c :: s) with
        | Some note_date =>
            try_except_ValueError
              (run create_daily_note unicode_digit (Some note_date); ret PyNone)
              (ret PyNone)
        | None => ret PyNone
        end
    | _ =>
        run monitor_loop clock None;
        ret PyNone
    end.

End Main.

(** The text of a number below 100 without a leading zero. *)
Definition digits_unpadded (v : Z) : pystr :=
  if v <? 10 then [digit_char v] else [digit_char (v / 10); digit_char (v mod 10)].

(** The text of a date with its month and day written without padding, as
    in [2024-3-5]. *)
Definition unpadded_Ymd (d : date) : pystr :=
  [ digit_char (year d / 1000 mod 10); digit_char (year d / 100 mod 10);
    digit_char (year d / 10 mod 10); digit_char (year d mod 10) ]
  ++ [HYPHEN] ++ digits_unpadded (month d)
  ++ [HYPHEN] ++ digits_unpadded (day d).

(** ** Auxiliary definitions of the proofs *)

(** The extra day of a leap year. *)
Definition leap_days (y : Z) : Z := if _is_leap y then 1 else 0.

(** What [_ord2md] has to give for the [n]-th day of a year. *)
Definition ord2md_ok (leapyear : bool) (n : Z) : bool :=
  let '(m, d) := _ord2md leapyear n in
  (1 <=? m) && (m <=? 12) && (1 <=? d)
  && (d <=? (if (m =? 2) && leapyear then 29 else tbl _DAYS_IN_MONTH m))
  && (tbl _DAYS_BEFORE_MONTH m + (if (2 <? m) && leapyear then 1 else 0) + d
      =? n + 1).

(** The names the glob lists in the world [w]. *)
Definition listed (w : world) : list pystr :=
  filter (λ n, glob_md n = true) (map_to_list (entries w)).*1.

(** The note of a name, when its stem is read as a date. *)
Definition note_of (unicode_digit : N → option Z) (md : pystr)
    : option (date * pystr) :=
  d ← strptime_Ymd unicode_digit (stem md); Some (d, md).

(** The value [get_all_notes] returns in the world [w]. *)
Definition notes_of (unicode_digit : N → option Z) (w : world)
    : list (date * pystr) :=
  merge_sort note_le (collect_notes unicode_digit (listed w)).

(** A text given by its lines, each ended by a line feed. *)
Definition unlines (ls : list pystr) : pystr :=
  concat (map (λ l, l ++ [LF]) ls).

(** A text without line boundary, as [str.splitlines] sees them. *)
Definition single_line (s : pystr) : Prop :=
  Forall (λ c, is_linebreak c = false) s.

(** The lines of the Tasks section for the todos [ts]. *)
Definition task_lines (ts : list pystr) : list pystr :=
  match ts with
  | [] => [TODO_PREFIX]
  | _ :: _ => map (λ t, TODO_PREFIX ++ t) ts
  end.

(** The lines of the note for the date [d] and the todos [ts]. *)
Definition body_lines (d : date) (ts : list pystr) : list pystr :=
  [py "# " ++ strftime_Ymd d; []; py "## Tasks"] ++ task_lines ts
  ++ [[]; py "## Notes"; py "- "].

(** The unfinished todos of a text. *)
Definition todos_of (text : pystr) : list pystr := scan_lines (splitlines text).

(** The text [read_text] gives for a name of the directory, if any. *)
Definition note_text (w : world) (name : pystr) : option pystr :=
  match entries w !! name with
  | Some (Text t) => Some t
  | _ => None
  end.

Definition note_todos (w : world) (n : date * pystr) : option (list pystr) :=
  todos_of <$> note_text w n.2.

(** The world after the events [es]. *)
Definition logs (es : list event) (w : world) : world :=
  mkworld (notes_dir w) (mkdir_ok w) (write_ok w) (failed_write w) (today w)
    (trace w ++ es).

(** The items of [l] that are not in [seen] nor earlier in [l]. *)
Fixpoint unseen (seen : gset pystr) (l : list pystr) : list pystr :=
  match l with
  | [] => []
  | x :: l' =>
      if decide (x ∈ seen) then unseen seen l' else x :: unseen ({[x]} ∪ seen) l'
  end.

(** Following the specification: of a sequence of todo texts, the
    occurrences whose text does not occur at an earlier position, in the
    order of the sequence. *)
Definition spec_first_occurrences (s : list pystr) : list pystr :=
  omap (λ i, x ← s !! i; if decide (x ∈ take i s) then None else Some x)
       (seq 0 (length s)).

(** The name of the note of a date. *)
Definition note_name (d : date) : pystr := strftime_Ymd d ++ MD_SUFFIX.

(** Following the specification: the window [[date - 7 days, date)], on
    the ordinals of the dates. *)
Definition spec_in_window (target : date) (n : date * pystr) : Prop :=
  toordinal target - 7 ≤ toordinal n.1 < toordinal target.

Global Instance in_window_dec target n : Decision (spec_in_window target n).
Proof. unfold spec_in_window. apply _. Defined.

(** The notes of the directory in the window of [target]. *)
Definition window_notes (unicode_digit : N → option Z) (w : world)
    (target : date) : list (date * pystr) :=
  filter (spec_in_window target) (notes_of unicode_digit w).

(** Two worlds with the same directory, permissions and clock: they differ
    by their trace only. *)
Definition same_fs (w w' : world) : Prop :=
  notes_dir w' = notes_dir w ∧ mkdir_ok w' = mkdir_ok w
  ∧ write_ok w' = write_ok w ∧ failed_write w' = failed_write w
  ∧ today w' = today w.

(** Following the specification: a stem in the exact format of four digits,
    a hyphen, two digits, a hyphen and two digits. *)
Definition spec_exact_format (s : pystr) : bool :=
  match s with
  | [y1; y2; y3; y4; h1; m1; m2; h2; d1; d2] =>
      forallb (in_range 48 57) [y1; y2; y3; y4; m1; m2; d1; d2]
      && N.eqb h1 HYPHEN && N.eqb h2 HYPHEN
  | _ => false
  end.

(** The directory that holds the files [files] and lets notes be written. *)
Definition dir_with (files : list (pystr * node)) : world :=
  mkworld (Some (list_to_map files)) true true None (mkdate 2024 3 10) [].

(** Following the specification of the names of the notes, as a grammar:
    the year is four decimal digits; [re_digit] gives the value of a decimal
    digit, [ascii_digit lo hi] that of an ASCII digit between two
    characters. *)
Definition spec_year_text (unicode_digit : N → option Z) (y : Z) (s : pystr)
    : Prop :=
  ∃ c1 c2 c3 c4 v1 v2 v3 v4,
    s = [c1; c2; c3; c4]
    ∧ re_digit unicode_digit c1 = Some v1 ∧ re_digit unicode_digit c2 = Some v2
    ∧ re_digit unicode_digit c3 = Some v3 ∧ re_digit unicode_digit c4 = Some v4
    ∧ y = v1 * 1000 + v2 * 100 + v3 * 10 + v4.

(** The month is [10], [11] or [12], or [0] and a digit from [1] to [9], or
    a digit from [1] to [9] alone. *)
Definition spec_month_text (m : Z) (s : pystr) : Prop :=
  (∃ c v, s = [49%N; c] ∧ ascii_digit 48 50 c = Some v ∧ m = 10 + v)
  ∨ (∃ c, s = [48%N; c] ∧ ascii_digit 49 57 c = Some m)
  ∨ (∃ c, s = [c] ∧ ascii_digit 49 57 c = Some m).

(** The day is [30] or [31], or [1] or [2] and a decimal digit, or [0] and
    a digit from [1] to [9], or a digit from [1] to [9] alone, or after a
    space. *)
Definition spec_day_text (unicode_digit : N → option Z) (d : Z) (s : pystr)
    : Prop :=
  (∃ c v, s = [51%N; c] ∧ ascii_digit 48 49 c = Some v ∧ d = 30 + v)
  ∨ (∃ c1 c2 v1 v2, s = [c1; c2] ∧ ascii_digit 49 50 c1 = Some v1
       ∧ re_digit unicode_digit c2 = Some v2 ∧ d = v1 * 10 + v2)
  ∨ (∃ c, s = [48%N; c] ∧ ascii_digit 49 57 c = Some d)
  ∨ (∃ c, s = [c] ∧ ascii_digit 49 57 c = Some d)
  ∨ (∃ c, s = [SPACE; c] ∧ ascii_digit 49 57 c = Some d).

(** The texts of a date: year, month and day with hyphens between them. *)
Definition spec_date_text (unicode_digit : N → option Z) (d : date)
    (s : pystr) : Prop :=
  ∃ ys ms ds,
    s = ys ++ [HYPHEN] ++ ms ++ [HYPHEN] ++ ds
    ∧ spec_year_text unicode_digit (year d) ys
    ∧ spec_month_text (month d) ms
    ∧ spec_day_text unicode_digit (day d) ds.

(** * Properties *)

(** ** The calendar *)

Lemma is_leap_spec y :
  _is_leap y = true ↔ y mod 4 = 0 ∧ (y mod 100 ≠ 0 ∨ y mod 400 = 0).
Proof.
  unfold _is_leap.
  rewrite andb_true_iff, orb_true_iff, negb_true_iff, !Z.eqb_eq, Z.eqb_neq.
  tauto.
Qed.

Lemma days_before_year_succ y :
  _days_before_year (y + 1) = _days_before_year y + 365 + leap_days y.
Proof.
  unfold _days_before_year, leap_days.
  destruct (_is_leap y) eqn:E.
  - apply is_leap_spec in E. Z.to_euclidean_division_equations; lia.
  - assert (¬ (y mod 4 = 0 ∧ (y mod 100 ≠ 0 ∨ y mod 400 = 0))) as E'
      by (rewrite <- is_leap_spec; congruence).
    Z.to_euclidean_division_equations; lia.
Qed.

Lemma days_before_year_mono y1 y2 :
  y1 ≤ y2 → _days_before_year y1 ≤ _days_before_year y2.
Proof.
  unfold _days_before_year. intros. Z.to_euclidean_division_equations; lia.
Qed.

Lemma days_before_year_next y1 y2 :
  y1 < y2 → _days_before_year y1 + 365 + leap_days y1 ≤ _days_before_year y2.
Proof.
  intros. rewrite <- days_before_year_succ.
  apply days_before_year_mono. lia.
Qed.

Ltac tbl_eval :=
  repeat match goal with
  | |- context [tbl ?t ?i] =>
      let v := eval vm_compute in (tbl t i) in change (tbl t i) with v
  end.

(** Months as cases. *)
Ltac month_cases m :=
  let H := fresh in
  assert (m = 1 ∨ m = 2 ∨ m = 3 ∨ m = 4 ∨ m = 5 ∨ m = 6 ∨ m = 7 ∨ m = 8
          ∨ m = 9 ∨ m = 10 ∨ m = 11 ∨ m = 12) as H by lia;
  repeat (destruct H as [H | H]); subst m.

Lemma valid_dateb_spec y m d :
  valid_dateb y m d = true ↔
  1 ≤ y ≤ 9999 ∧ 1 ≤ m ≤ 12 ∧ 1 ≤ d ≤ _days_in_month y m.
Proof.
  unfold valid_dateb, MINYEAR, MAXYEAR.
  rewrite !andb_true_iff, !Z.leb_le. tauto.
Qed.

Lemma day_of_year_bounds y m d :
  1 ≤ m ≤ 12 → 1 ≤ d ≤ _days_in_month y m →
  1 ≤ _days_before_month y m + d ≤ 365 + leap_days y.
Proof.
  intros Hm. unfold _days_in_month, _days_before_month, leap_days.
  destruct (_is_leap y); month_cases m; tbl_eval; cbn; lia.
Qed.

Lemma day_of_year_month_lt y m1 d1 m2 d2 :
  1 ≤ m1 → m1 < m2 → m2 ≤ 12 → d1 ≤ _days_in_month y m1 → 1 ≤ d2 →
  _days_before_month y m1 + d1 < _days_before_month y m2 + d2.
Proof.
  intros ? ? ?. unfold _days_in_month, _days_before_month.
  destruct (_is_leap y); month_cases m1; month_cases m2; tbl_eval; cbn; lia.
Qed.

Lemma date_ltb_spec a b :
  date_ltb a b = true ↔
  year a < year b ∨ (year a = year b ∧
    (month a < month b ∨ (month a = month b ∧ day a < day b))).
Proof.
  unfold date_ltb.
  rewrite !orb_true_iff, !andb_true_iff, !orb_true_iff, !andb_true_iff,
    !Z.ltb_lt, !Z.eqb_eq. tauto.
Qed.

Lemma date_ltb_toordinal a b :
  valid_date a → valid_date b → date_ltb a b = true → toordinal a < toordinal b.
Proof.
  unfold valid_date. rewrite !valid_dateb_spec, date_ltb_spec.
  destruct a as [ya ma da], b as [yb mb db]; cbn.
  intros (Hya & Hma & Hda) (Hyb & Hmb & Hdb) Hlt. unfold toordinal, _ymd2ord; cbn.
  pose proof (day_of_year_bounds ya ma da Hma Hda).
  pose proof (day_of_year_bounds yb mb db Hmb Hdb).
  destruct Hlt as [Hy | [-> [Hm | [-> Hd]]]].
  - pose proof (days_before_year_next ya yb Hy). lia.
  - pose proof (day_of_year_month_lt yb ma da mb db). lia.
  - lia.
Qed.

Lemma date_trichotomy a b : date_ltb a b = true ∨ a = b ∨ date_ltb b a = true.
Proof.
  rewrite !date_ltb_spec. destruct a as [ya ma da], b as [yb mb db]; cbn.
  destruct (Z.lt_trichotomy ya yb) as [?|[->|?]]; [lia| |lia].
  destruct (Z.lt_trichotomy ma mb) as [?|[->|?]]; [lia| |lia].
  destruct (Z.lt_trichotomy da db) as [?|[->|?]]; [lia| |lia].
  auto.
Qed.

Lemma date_ltb_iff a b :
  valid_date a → valid_date b →
  date_ltb a b = true ↔ toordinal a < toordinal b.
Proof.
  intros Ha Hb. split; [by apply date_ltb_toordinal|].
  intros Hlt. destruct (date_trichotomy a b) as [?|[->|Hba]]; [done|lia|].
  apply date_ltb_toordinal in Hba; [lia|done..].
Qed.

Lemma date_leb_iff a b :
  valid_date a → valid_date b →
  date_leb a b = true ↔ toordinal a ≤ toordinal b.
Proof.
  intros Ha Hb. unfold date_leb.
  rewrite orb_true_iff, bool_decide_eq_true, date_ltb_iff by done.
  split; [intros [?| ->]; lia|]. intros Hle.
  destruct (date_trichotomy a b) as [H|[->|H]]; [|by right|].
  - apply date_ltb_iff in H; auto.
  - apply date_ltb_iff in H; [lia|done..].
Qed.

Lemma toordinal_inj a b :
  valid_date a → valid_date b → toordinal a = toordinal b → a = b.
Proof.
  intros Ha Hb Heq. destruct (date_trichotomy a b) as [H|[->|H]]; [|done|].
  - apply date_ltb_iff in H; [lia|done..].
  - apply date_ltb_iff in H; [lia|done..].
Qed.

Lemma toordinal_bounds a : valid_date a → 1 ≤ toordinal a ≤ _MAXORDINAL.
Proof.
  unfold valid_date. rewrite valid_dateb_spec. intros (Hy & Hm & Hd).
  pose proof (day_of_year_bounds _ _ _ Hm Hd).
  unfold toordinal, _ymd2ord.
  assert (0 ≤ _days_before_year (year a)).
  { change 0 with (_days_before_year 1). apply days_before_year_mono. lia. }
  assert (_days_before_year (year a) + 365 + leap_days (year a) ≤ _days_before_year 10000).
  { apply days_before_year_next. lia. }
  change (_days_before_year 10000) with 3652059 in *. unfold _MAXORDINAL. lia.
Qed.

Lemma ord2md_ok_all (leapyear : bool) (n : Z) :
  0 ≤ n < 365 + (if leapyear then 1 else 0) → ord2md_ok leapyear n = true.
Proof.
  intros Hn.
  assert (forallb (ord2md_ok true) (seqZ 0 366) = true) as Ht by (vm_compute; reflexivity).
  assert (forallb (ord2md_ok false) (seqZ 0 365) = true) as Hf by (vm_compute; reflexivity).
  rewrite forallb_forall in Ht, Hf.
  destruct leapyear; [apply Ht | apply Hf];
    apply list_elem_of_In, elem_of_seqZ; lia.
Qed.

Lemma ord2md_spec y n m d :
  0 ≤ n < 365 + leap_days y → _ord2md (_is_leap y) n = (m, d) →
  1 ≤ m ≤ 12 ∧ 1 ≤ d ≤ _days_in_month y m ∧ _days_before_month y m + d = n + 1.
Proof.
  intros Hn Hmd. pose proof (ord2md_ok_all (_is_leap y) n Hn) as Hok.
  unfold ord2md_ok in Hok. rewrite Hmd in Hok.
  rewrite !andb_true_iff, !Z.leb_le, Z.eqb_eq in Hok.
  unfold _days_in_month, _days_before_month. lia.
Qed.

Lemma fromordinal_spec n :
  1 ≤ n ≤ _MAXORDINAL →
  valid_date (fromordinal n) ∧ toordinal (fromordinal n) = n.
Proof.
  unfold _MAXORDINAL. intros Hn.
  unfold fromordinal, _ord2ymd, _DI400Y, _DI100Y, _DI4Y.
  set (n0 := n - 1).
  set (n400 := n0 / 146097). set (r400 := n0 mod 146097).
  set (n100 := r400 / 36524). set (r100 := r400 mod 36524).
  set (n4 := r100 / 1461). set (r4 := r100 mod 1461).
  set (n1 := r4 / 365). set (r1 := r4 mod 365).
  set (y := n400 * 400 + 1 + n100 * 100 + n4 * 4 + n1).
  assert (n0 = 146097 * n400 + r400 ∧ 0 ≤ r400 < 146097) as [E400 B400]
    by (subst n400 r400; Z.to_euclidean_division_equations; lia).
  assert (r400 = 36524 * n100 + r100 ∧ 0 ≤ r100 < 36524) as [E100 B100]
    by (subst n100 r100; Z.to_euclidean_division_equations; lia).
  assert (r100 = 1461 * n4 + r4 ∧ 0 ≤ r4 < 1461) as [E4 B4]
    by (subst n4 r4; Z.to_euclidean_division_equations; lia).
  assert (r4 = 365 * n1 + r1 ∧ 0 ≤ r1 < 365) as [E1 B1]
    by (subst n1 r1; Z.to_euclidean_division_equations; lia).
  clearbody n400 r400 n100 r100 n4 r4 n1 r1.
  assert (0 ≤ n400 ≤ 24 ∧ 0 ≤ n100 ≤ 4 ∧ 0 ≤ n4 ≤ 24 ∧ 0 ≤ n1 ≤ 4) as (?&?&?&?) by lia.
  destruct ((n1 =? 4) || (n100 =? 4)) eqn:Hlast.
  - (* the last day of a leap year or of a 400-year cycle *)
    apply orb_true_iff in Hlast. rewrite !Z.eqb_eq in Hlast.
    assert (r1 = 0) by lia.
    assert (_is_leap (y - 1) = true) as Hleap.
    { apply is_leap_spec. subst y. Z.to_euclidean_division_equations; lia. }
    split.
    + unfold valid_date; cbn [year month day]. apply valid_dateb_spec.
      unfold _days_in_month. tbl_eval. cbn.
      subst y. lia.
    + unfold toordinal, _ymd2ord, _days_before_month; cbn [year month day].
      rewrite Hleap. tbl_eval. cbn [Z.ltb Z.compare Pos.compare Pos.compare_cont andb].
      unfold _days_before_year. subst y n0.
      Z.to_euclidean_division_equations; lia.
  - apply orb_false_iff in Hlast. rewrite !Z.eqb_neq in Hlast.
    assert ((n1 =? 3) && (negb (n4 =? 24) || (n100 =? 3)) = _is_leap y) as ->.
    { apply eq_true_iff_eq. rewrite is_leap_spec.
      rewrite andb_true_iff, orb_true_iff, negb_true_iff, !Z.eqb_eq, Z.eqb_neq.
      subst y. Z.to_euclidean_division_equations; lia. }
    destruct (_ord2md (_is_leap y) r1) as [m d] eqn:Hmd.
    apply ord2md_spec in Hmd as (Hm & Hd & Hord); [|unfold leap_days; destruct (_is_leap y); lia].
    split.
    + unfold valid_date; cbn [year month day]. apply valid_dateb_spec. subst y. lia.
    + unfold toordinal, _ymd2ord; cbn [year month day].
      assert (_days_before_year y = n0 - r1); [|lia].
      unfold _days_before_year. subst y.
      Z.to_euclidean_division_equations; lia.
Qed.

(** ** The order of the sort *)

Lemma str_ltb_irrefl s : str_ltb s s = false.
Proof.
  induction s as [|a s IH]; [done|]. cbn.
  by rewrite N.ltb_irrefl, N.eqb_refl.
Qed.

Lemma str_trichotomy s1 s2 :
  str_ltb s1 s2 = true ∨ s1 = s2 ∨ str_ltb s2 s1 = true.
Proof.
  revert s2. induction s1 as [|a s1 IH]; intros [|b s2]; cbn; auto.
  destruct (N.lt_trichotomy a b) as [Hlt|[->|Hgt]].
  - left. by apply N.ltb_lt in Hlt as ->.
  - rewrite N.ltb_irrefl, N.eqb_refl.
    destruct (IH s2) as [?|[->|?]]; auto.
  - right; right. by apply N.ltb_lt in Hgt as ->.
Qed.

Lemma str_ltb_trans s1 s2 s3 :
  str_ltb s1 s2 = true → str_ltb s2 s3 = true → str_ltb s1 s3 = true.
Proof.
  revert s2 s3. induction s1 as [|a s1 IH]; intros [|b s2] [|c s3]; cbn; try done.
  destruct (N.ltb_spec a b), (N.ltb_spec b c), (N.ltb_spec a c);
    destruct (N.eqb_spec a b), (N.eqb_spec b c), (N.eqb_spec a c);
    try done; try lia.
  apply IH.
Qed.

Lemma str_ltb_asym s1 s2 : str_ltb s1 s2 = true → str_ltb s2 s1 = false.
Proof.
  intros H. destruct (str_ltb s2 s1) eqn:E; [|done].
  by rewrite <- (str_ltb_irrefl s1), <- (str_ltb_trans _ _ _ H E).
Qed.

Lemma date_ltb_irrefl a : date_ltb a a = false.
Proof. apply not_true_is_false. rewrite date_ltb_spec. lia. Qed.

Lemma date_ltb_trans a b c :
  date_ltb a b = true → date_ltb b c = true → date_ltb a c = true.
Proof. rewrite !date_ltb_spec. lia. Qed.

Lemma date_ltb_asym a b : date_ltb a b = true → date_ltb b a = false.
Proof.
  intros H. apply not_true_is_false. revert H. rewrite !date_ltb_spec. lia.
Qed.

Lemma note_ltb_irrefl a : note_ltb a a = false.
Proof.
  unfold note_ltb. rewrite bool_decide_eq_true_2 by done. apply str_ltb_irrefl.
Qed.

Lemma note_trichotomy a b :
  note_ltb a b = true ∨ a = b ∨ note_ltb b a = true.
Proof.
  destruct a as [d1 n1], b as [d2 n2]. unfold note_ltb; cbn.
  destruct (date_trichotomy d1 d2) as [H|[->|H]].
  - left. rewrite bool_decide_eq_false_2; [done|].
    intros ->. by rewrite date_ltb_irrefl in H.
  - rewrite !bool_decide_eq_true_2 by done.
    destruct (str_trichotomy n1 n2) as [?|[->|?]]; auto.
  - right; right. rewrite bool_decide_eq_false_2; [done|].
    intros ->. by rewrite date_ltb_irrefl in H.
Qed.

Lemma note_ltb_trans a b c :
  note_ltb a b = true → note_ltb b c = true → note_ltb a c = true.
Proof.
  destruct a as [d1 n1], b as [d2 n2], c as [d3 n3]. unfold note_ltb; cbn.
  repeat case_bool_decide; subst; try done.
  - apply str_ltb_trans.
  - intros H1 H2. by rewrite (date_ltb_asym _ _ H1) in H2.
  - apply date_ltb_trans.
Qed.

Lemma note_ltb_asym a b : note_ltb a b = true → note_ltb b a = false.
Proof.
  intros H. destruct (note_ltb b a) eqn:E; [|done].
  by rewrite <- (note_ltb_irrefl a), <- (note_ltb_trans _ _ _ H E).
Qed.

Global Instance note_le_total : Total note_le.
Proof.
  intros a b. unfold note_le.
  destruct (note_ltb b a) eqn:E; [right; by apply note_ltb_asym | by left].
Qed.

Global Instance note_le_trans : Transitive note_le.
Proof.
  intros a b c. unfold note_le. intros Hba Hcb.
  destruct (note_ltb c a) eqn:Hca; [|done].
  destruct (note_trichotomy b a) as [H|[->|H]]; [congruence..|].
  by rewrite (note_ltb_trans _ _ _ Hca H) in Hcb.
Qed.

Global Instance note_le_antisymm : AntiSymm (=) note_le.
Proof.
  intros a b. unfold note_le. intros Hba Hab.
  destruct (note_trichotomy a b) as [H|[->|H]]; congruence.
Qed.

(** Entries in the order of the sort have their dates in ascending order. *)
Lemma note_le_date a b : note_le a b → date_leb a.1 b.1 = true.
Proof.
  unfold note_le, note_ltb, date_leb. case_bool_decide as E.
  - intros _. rewrite (bool_decide_eq_true_2 _ (eq_sym E)). apply orb_true_r.
  - intros H. destruct (date_trichotomy a.1 b.1) as [->|[?|?]]; [done|done..|congruence].
Qed.

(** ** The monad *)

Lemma entries_log e w : entries (log e w) = entries w.
Proof. done. Qed.

Lemma notes_dir_log e w : notes_dir (log e w) = notes_dir w.
Proof. done. Qed.

Lemma trace_log e w : trace (log e w) = trace w ++ [e].
Proof. done. Qed.

(** ** [Path.stem] and the glob *)

Lemma rfind_dot_None s : rfind_dot s = None ↔ DOT ∉ s.
Proof.
  induction s as [|c s IH]; cbn.
  - split; [intros _; apply not_elem_of_nil | done].
  - rewrite not_elem_of_cons. destruct (rfind_dot s) as [i|].
    + split; [done|]. intros [_ H]. by apply IH in H.
    + destruct (N.eqb_spec c DOT) as [->|Hne]; split; try done.
      * by intros [? _].
      * intros _. split; [done|]. by apply IH.
Qed.

Lemma rfind_dot_app_suffix x t :
  DOT ∉ t → rfind_dot (x ++ DOT :: t) = Some (length x).
Proof.
  intros Ht. induction x as [|c x IH]; cbn.
  - apply rfind_dot_None in Ht as ->. done.
  - by rewrite IH.
Qed.

Lemma glob_md_spec name : glob_md name = true ↔ ∃ x, name = x ++ MD_SUFFIX.
Proof. unfold glob_md. by rewrite bool_decide_eq_true. Qed.

Lemma stem_md x : x ≠ [] → stem (x ++ MD_SUFFIX) = x.
Proof.
  intros Hx. unfold stem, MD_SUFFIX.
  change [46%N; 109%N; 100%N] with (DOT :: [109%N; 100%N]).
  rewrite rfind_dot_app_suffix by (rewrite !not_elem_of_cons; repeat split; [done..|apply not_elem_of_nil]).
  rewrite length_app; cbn [length].
  rewrite bool_decide_eq_true_2, take_app_length; [done|].
  destruct x; [done|cbn; lia].
Qed.

(** A name the glob selects whose stem has no dot is the stem followed by
    [".md"]. *)
Lemma glob_md_stem name :
  glob_md name = true → DOT ∉ stem name → name = stem name ++ MD_SUFFIX.
Proof.
  intros [x ->]%glob_md_spec Hdot. destruct (decide (x = [])) as [->|Hx].
  - exfalso. apply Hdot. vm_compute. apply list_elem_of_In. by left.
  - by rewrite stem_md.
Qed.

(** ** [strptime] and [strftime] *)

Lemma strptime_valid nd s d : strptime_Ymd nd s = Some d → valid_date d.
Proof.
  unfold strptime_Ymd. destruct (strptime_match nd s) as [[[[y m] dd] rest]|]; [|done].
  cbn. destruct rest; [|done]. destruct (valid_dateb y m dd) eqn:E; [|done].
  by intros [= <-].
Qed.

Lemma digit_char_range v : 0 ≤ v ≤ 9 → in_range 48 57 (digit_char v) = true.
Proof.
  intros Hv. unfold in_range, digit_char.
  apply andb_true_iff. rewrite !N.leb_le. lia.
Qed.

Lemma re_digit_char nd v : 0 ≤ v ≤ 9 → re_digit nd (digit_char v) = Some v.
Proof.
  intros Hv. unfold re_digit. rewrite digit_char_range by done.
  f_equal. unfold digit_char. lia.
Qed.

Lemma digit_char_not_dot v : 0 ≤ v ≤ 9 → digit_char v ≠ DOT.
Proof. unfold digit_char, DOT. lia. Qed.

Lemma padded_no_dot d : DOT ∉ padded_Ymd d.
Proof.
  unfold padded_Ymd. rewrite !not_elem_of_cons.
  repeat split; try apply not_elem_of_nil; try done;
    apply not_eq_sym, digit_char_not_dot;
    Z.to_euclidean_division_equations; lia.
Qed.

Lemma strftime_padded d : 1000 ≤ year d → strftime_Ymd d = padded_Ymd d.
Proof.
  intros Hy. unfold strftime_Ymd, year_text, padded_Ymd.
  destruct (Z.ltb_spec (year d) 10); [lia|].
  destruct (Z.ltb_spec (year d) 100); [lia|].
  by destruct (Z.ltb_spec (year d) 1000); [lia|].
Qed.

Lemma strftime_no_dot d : DOT ∉ strftime_Ymd d.
Proof.
  unfold strftime_Ymd, year_text.
  destruct (year d <? 10) eqn:E1; [apply Z.ltb_lt in E1|apply Z.ltb_ge in E1];
    [|destruct (year d <? 100) eqn:E2;
        [apply Z.ltb_lt in E2|apply Z.ltb_ge in E2];
        [|destruct (year d <? 1000) eqn:E3;
            [apply Z.ltb_lt in E3|apply Z.ltb_ge in E3]]];
    cbn [app]; rewrite !not_elem_of_cons;
    repeat split; try apply not_elem_of_nil; try done;
    apply not_eq_sym, digit_char_not_dot;
    Z.to_euclidean_division_equations; lia.
Qed.

Lemma re_md_padded nd m d :
  1 ≤ m ≤ 12 → 1 ≤ d ≤ 31 →
  re_md nd [digit_char (m / 10 mod 10); digit_char (m mod 10); HYPHEN;
            digit_char (d / 10 mod 10); digit_char (d mod 10)]
  = Some (m, d, []).
Proof.
  intros Hm Hd.
  assert (forallb (λ m, forallb (λ d, bool_decide
    (re_md nd [digit_char (m / 10 mod 10); digit_char (m mod 10); HYPHEN;
               digit_char (d / 10 mod 10); digit_char (d mod 10)]
     = Some (m, d, []))) (seqZ 1 31)) (seqZ 1 12) = true) as Hall
    by (vm_compute; reflexivity).
  rewrite forallb_forall in Hall.
  specialize (Hall m). rewrite forallb_forall in Hall.
  eapply bool_decide_eq_true, Hall; apply list_elem_of_In, elem_of_seqZ; lia.
Qed.

(** The zero-padded text of a date is read back as that date. *)
Lemma strptime_padded nd d :
  valid_date d → strptime_Ymd nd (padded_Ymd d) = Some d.
Proof.
  destruct d as [y m dd]. unfold valid_date; cbn [year month day].
  intros Hv. pose proof Hv as (Hy & Hm & Hd)%valid_dateb_spec.
  assert (_days_in_month y m ≤ 31).
  { unfold _days_in_month. destruct (_ && _); [lia|]. month_cases m; by vm_compute. }
  unfold strptime_Ymd, strptime_match, padded_Ymd, re_Y; cbn [year month day].
  rewrite !re_digit_char by (Z.to_euclidean_division_equations; lia).
  cbn [mbind option_bind re_hyphen]. rewrite N.eqb_refl.
  cbn [mbind option_bind]. rewrite re_md_padded by lia.
  cbn [mbind option_bind].
  replace (_ + _ + _ + _) with y by (Z.to_euclidean_division_equations; lia).
  by rewrite Hv.
Qed.

(** From the year 1000 on, the text [strftime] gives is read back as the
    date. *)
Lemma strptime_strftime nd d :
  valid_date d → 1000 ≤ year d → strptime_Ymd nd (strftime_Ymd d) = Some d.
Proof. intros Hd Hy. rewrite strftime_padded by done. by apply strptime_padded. Qed.

(** ** [get_all_notes] *)

Lemma collect_notes_omap nd mds : collect_notes nd mds = omap (note_of nd) mds.
Proof.
  unfold collect_notes.
  enough (∀ acc, foldl (λ notes md,
            match strptime_Ymd nd (stem md) with
            | Some note_date => notes ++ [(note_date, md)]
            | None => notes
            end) acc mds = acc ++ omap (note_of nd) mds) as H by apply H.
  induction mds as [|md mds IH]; intros acc; cbn.
  - by rewrite app_nil_r.
  - rewrite IH. unfold note_of at 2.
    destruct (strptime_Ymd nd (stem md)); cbn; [|done].
    by rewrite <- app_assoc.
Qed.

Lemma get_all_notes_run nd w :
  get_all_notes nd w = (Ok (notes_of nd w), log EvGlob w).
Proof. done. Qed.

Lemma elem_of_listed w n :
  n ∈ listed w ↔ is_Some (entries w !! n) ∧ glob_md n = true.
Proof.
  unfold listed. rewrite list_elem_of_filter, list_elem_of_fmap.
  split.
  - intros [Hg [[n' x] [-> Hin%elem_of_map_to_list]]]. eauto.
  - intros [[x Hx] Hg]. split; [done|].
    exists (n, x). split; [done|]. by apply elem_of_map_to_list.
Qed.

Lemma NoDup_listed w : NoDup (listed w).
Proof. apply NoDup_filter, NoDup_fst_map_to_list. Qed.

Lemma elem_of_notes_of nd w d n :
  (d, n) ∈ notes_of nd w ↔
  is_Some (entries w !! n) ∧ glob_md n = true
  ∧ strptime_Ymd nd (stem n) = Some d.
Proof.
  unfold notes_of. rewrite merge_sort_Permutation, collect_notes_omap.
  rewrite list_elem_of_omap. setoid_rewrite elem_of_listed.
  unfold note_of. split.
  - intros (md & [Hmd Hg] & Hn).
    destruct (strptime_Ymd nd (stem md)) eqn:E; [|done].
    cbn in Hn. by simplify_eq.
  - intros (? & ? & Hd). exists n. rewrite Hd. naive_solver.
Qed.

Lemma notes_of_names nd w :
  (notes_of nd w).*2 ≡ₚ
  filter (λ n, is_Some (strptime_Ymd nd (stem n))) (listed w).
Proof.
  unfold notes_of. rewrite merge_sort_Permutation, collect_notes_omap.
  induction (listed w) as [|n l IH]; [done|].
  rewrite filter_cons. cbn [omap list_omap]. unfold note_of at 1.
  destruct (strptime_Ymd nd (stem n)) eqn:E; cbn.
  - rewrite decide_True by eauto. by rewrite IH.
  - rewrite decide_False by (by intros [??]). done.
Qed.

Lemma NoDup_notes_of_names nd w : NoDup (notes_of nd w).*2.
Proof. rewrite notes_of_names. apply NoDup_filter, NoDup_listed. Qed.

Lemma NoDup_notes_of nd w : NoDup (notes_of nd w).
Proof. eapply NoDup_fmap_1, NoDup_notes_of_names. Qed.

Lemma notes_of_sorted nd w : StronglySorted note_le (notes_of nd w).
Proof. apply StronglySorted_merge_sort; apply _. Qed.

Lemma notes_of_valid nd w d n : (d, n) ∈ notes_of nd w → valid_date d.
Proof. intros (_ & _ & H)%elem_of_notes_of. by eapply strptime_valid. Qed.

(** A relation that holds between the elements of a list in its order. *)
Lemma StronglySorted_impl {A} (R S : relation A) l :
  (∀ x y, R x y → S x y) → StronglySorted R l → StronglySorted S l.
Proof.
  intros HRS. induction 1 as [|x l Hl IH Hx]; constructor; [done|].
  eapply Forall_impl; [exact Hx|]. auto.
Qed.

(** ** Lines *)

Lemma splitlines_from_single_line cur s line :
  single_line cur → line ∈ splitlines_from cur s → single_line line.
Proof.
  remember (length s) as k eqn:Hk. revert cur s Hk.
  induction k as [k IH] using lt_wf_ind. intros cur s -> Hcur.
  assert (single_line (rev cur)) as Hrev.
  { by apply List.Forall_rev. }
  destruct s as [|c s]; cbn [splitlines_from].
  { destruct cur; [by intros ?%elem_of_nil|]. by intros ->%list_elem_of_singleton. }
  destruct (N.eqb c CR).
  - destruct s as [|c' s].
    + cbn. rewrite elem_of_cons. intros [->|?%elem_of_nil]; done.
    + destruct (N.eqb c' LF); rewrite elem_of_cons; intros [->|Hin]; try done.
      * eapply (IH (length s)); [cbn; lia|done| |done]. constructor.
      * eapply (IH (length (c' :: s))); [cbn; lia|done| |done]. constructor.
  - destruct (is_linebreak c) eqn:Hc.
    + rewrite elem_of_cons; intros [->|Hin]; [done|].
      eapply (IH (length s)); [cbn; lia|done| |done]. constructor.
    + intros Hin. eapply (IH (length s)); [cbn; lia|done| |done].
      by constructor.
Qed.

Lemma splitlines_single_line s line : line ∈ splitlines s → single_line line.
Proof. apply splitlines_from_single_line. constructor. Qed.

Lemma single_line_no_LF s : single_line s → LF ∉ s.
Proof.
  intros Hs Hin. unfold single_line in Hs. rewrite Forall_forall in Hs.
  by apply Hs in Hin.
Qed.

Lemma upto_LF_id s : LF ∉ s → upto_LF s = s.
Proof.
  induction s as [|c s IH]; [done|]. rewrite not_elem_of_cons. intros [Hc Hs].
  cbn. destruct (N.eqb_spec c LF); [congruence|]. by rewrite IH.
Qed.

Lemma splitlines_from_line cur l rest :
  single_line l →
  splitlines_from cur (l ++ LF :: rest) = (rev cur ++ l) :: splitlines_from [] rest.
Proof.
  intros Hl. revert cur. induction Hl as [|c l Hc _ IH]; intros cur.
  - by rewrite app_nil_r.
  - cbn [app splitlines_from].
    destruct (N.eqb_spec c CR) as [->|_]; [done|].
    rewrite Hc, IH. cbn. by rewrite <- app_assoc.
Qed.

Lemma splitlines_unlines ls : Forall single_line ls → splitlines (unlines ls) = ls.
Proof.
  unfold splitlines, unlines. induction 1 as [|l ls Hl _ IH]; [done|].
  cbn [map concat]. rewrite <- app_assoc. cbn [app].
  by rewrite splitlines_from_line, IH.
Qed.

(** ** The pattern of an unfinished todo *)

Lemma strip_prefix_spec p s r : strip_prefix p s = Some r ↔ s = p ++ r.
Proof.
  revert s. induction p as [|a p IH]; intros s; cbn.
  - split; congruence.
  - destruct s as [|b s]; [done|].
    destruct (N.eqb_spec a b) as [->|Hne].
    + rewrite IH. split; congruence.
    + split; [done|]. congruence.
Qed.

Lemma TODO_PATTERN_match_spec line g :
  TODO_PATTERN_match line = Some g ↔
  ∃ rest, line = TODO_PREFIX ++ rest ∧ g = upto_LF rest ∧ g ≠ [].
Proof.
  unfold TODO_PATTERN_match, re_dot_plus. split.
  - destruct (strip_prefix TODO_PREFIX line) as [rest|] eqn:E; [|done].
    apply strip_prefix_spec in E. cbn.
    destruct (upto_LF rest) eqn:E'; [done|]. intros [= <-]. by exists rest.
  - intros (rest & -> & -> & Hne).
    rewrite (proj2 (strip_prefix_spec _ _ rest)) by done. cbn.
    by destruct (upto_LF rest).
Qed.

(** On a line of [splitlines] the pattern captures all that follows the
    prefix. *)
Lemma TODO_PATTERN_match_line line g :
  single_line line →
  TODO_PATTERN_match line = Some g ↔ line = TODO_PREFIX ++ g ∧ g ≠ [].
Proof.
  intros Hl. rewrite TODO_PATTERN_match_spec. split.
  - intros (rest & -> & -> & Hne).
    unfold single_line in Hl. apply Forall_app in Hl as [_ Hl].
    rewrite upto_LF_id in Hne |- * by (by apply single_line_no_LF). done.
  - intros [-> Hne]. exists g. unfold single_line in Hl.
    apply Forall_app in Hl as [_ Hl].
    rewrite upto_LF_id by (by apply single_line_no_LF). done.
Qed.

Lemma scan_lines_omap lines : scan_lines lines = omap TODO_PATTERN_match lines.
Proof.
  unfold scan_lines.
  enough (∀ acc, foldl (λ todos line,
            match TODO_PATTERN_match line with
            | Some g => todos ++ [g]
            | None => todos
            end) acc lines = acc ++ omap TODO_PATTERN_match lines) as H by apply H.
  induction lines as [|l lines IH]; intros acc; cbn [foldl omap list_omap].
  - by rewrite app_nil_r.
  - rewrite IH. destruct (TODO_PATTERN_match l); [|done].
    by rewrite <- app_assoc.
Qed.

(** ** The text of the note *)

Lemma render_body_unlines nd_date ts :
  render_body nd_date ts = unlines (body_lines nd_date ts).
Proof.
  unfold render_body, body_lines, unlines.
  rewrite !map_app, !concat_app. cbn [map concat].
  assert (∀ body l, foldl (λ body t, body ++ TODO_PREFIX ++ t ++ [LF]) body l
          = body ++ concat (map (λ l, l ++ [LF]) (map (λ t, TODO_PREFIX ++ t) l)))
    as Hloop.
  { intros body l. revert body.
    induction l as [|t l IH]; intros body; cbn [foldl map concat].
    - by rewrite app_nil_r.
    - rewrite IH. by rewrite <- !app_assoc. }
  destruct ts as [|t ts].
  - cbn [task_lines map concat]. by rewrite <- !app_assoc.
  - rewrite Hloop. cbn [task_lines]. by rewrite <- !app_assoc.
Qed.

(** ** [extract_undone_todos] and [aggregate_todos] *)

Lemma logs_nil w : logs [] w = w.
Proof. destruct w. unfold logs; cbn. by rewrite app_nil_r. Qed.

Lemma logs_cons e es w : logs (e :: es) w = logs es (log e w).
Proof. unfold logs, log; cbn. by rewrite <- app_assoc. Qed.

Lemma note_text_log e w n : note_text (log e w) n = note_text w n.
Proof. done. Qed.

Lemma extract_readable w n t :
  note_text w n = Some t →
  extract_undone_todos n w = (Ok (todos_of t), log (EvRead n) w).
Proof.
  unfold note_text, extract_undone_todos, bind, read_text.
  destruct (entries w !! n) as [[t'|]|]; [|done..]. by intros [= ->].
Qed.

Lemma extract_unreadable w n :
  note_text w n = None →
  extract_undone_todos n w = (Raise (ReadError n), log (EvRead n) w).
Proof.
  unfold note_text, extract_undone_todos, bind, read_text.
  by destruct (entries w !! n) as [[t'|]|].
Qed.

Lemma aggregate_loop_readable notes tss st w :
  mapM (note_todos w) notes = Some tss →
  aggregate_loop notes st w
  = (Ok (foldl add_todo st (concat tss)).2, logs (EvRead <$> notes.*2) w).
Proof.
  revert tss st w. induction notes as [|[d n] notes IH]; intros tss st w Hm.
  - cbn in Hm. injection Hm as <-. cbn. by rewrite logs_nil.
  - rewrite mapM_Some in Hm. apply Forall2_cons_inv_l in Hm as (ts & tss' & Ht & Hm & ->).
    unfold note_todos in Ht; cbn in Ht.
    destruct (note_text w n) as [t|] eqn:E; [|done]. injection Ht as <-.
    cbn [aggregate_loop]. unfold bind at 1. rewrite (extract_readable _ _ _ E).
    rewrite (IH tss'); [|apply mapM_Some; eapply Forall2_impl; [exact Hm|done]].
    cbn [concat fmap list_fmap snd]. by rewrite foldl_app, logs_cons.
Qed.

(** The loop fails at the first note that cannot be read, and leaves the
    directory as it was. *)
Lemma aggregate_loop_unreadable notes st w :
  Exists (λ n, note_todos w n = None) notes →
  ∃ d n w', aggregate_loop notes st w = (Raise (ReadError n), w')
    ∧ (d, n) ∈ notes ∧ note_text w n = None
    ∧ notes_dir w' = notes_dir w ∧ today w' = today w.
Proof.
  revert st w. induction notes as [|[d n] notes IH]; intros st w Hex.
  { by apply Exists_nil in Hex. }
  cbn [aggregate_loop]. unfold bind at 1.
  destruct (note_text w n) as [t|] eqn:E.
  - rewrite (extract_readable _ _ _ E).
    apply Exists_cons in Hex as [Hex|Hex].
    { unfold note_todos in Hex; cbn in Hex. by rewrite E in Hex. }
    destruct (IH (foldl add_todo st (todos_of t)) (log (EvRead n) w))
      as (d' & n' & w' & -> & Hin & Hn' & Hdir & Htoday); [done|].
    exists d', n', w'. split_and!; try done. by apply list_elem_of_further.
  - rewrite (extract_unreadable _ _ E).
    exists d, n, (log (EvRead n) w). split_and!; try done. apply list_elem_of_here.
Qed.

(** ** First occurrences *)

Lemma omap_ext_same {A B} (f g : A → option B) (l : list A) :
  (∀ x, f x = g x) → omap f l = omap g l.
Proof.
  intros Hfg. induction l as [|x l IH]; [done|]. cbn. by rewrite Hfg, IH.
Qed.

Lemma omap_fmap {A B C} (f : B → option C) (g : A → B) (l : list A) :
  omap f (g <$> l) = omap (λ x, f (g x)) l.
Proof. induction l as [|x l IH]; [done|]. cbn. by rewrite IH. Qed.

Lemma foldl_add_todo seen acc l :
  foldl add_todo (seen, acc) l
  = (list_to_set (unseen seen l) ∪ seen, acc ++ unseen seen l).
Proof.
  revert seen acc. induction l as [|x l IH]; intros seen acc; cbn [foldl unseen].
  - cbn. f_equal; [set_solver | by rewrite app_nil_r].
  - unfold add_todo at 2; cbn [fst snd]. destruct (decide (x ∈ seen)).
    + apply IH.
    + rewrite IH. f_equal; [|by rewrite <- app_assoc].
      cbn. set_solver.
Qed.

Lemma elem_of_unseen seen l x : x ∈ unseen seen l ↔ x ∈ l ∧ x ∉ seen.
Proof.
  revert seen. induction l as [|y l IH]; intros seen; cbn.
  - set_solver.
  - destruct (decide (y ∈ seen)).
    + rewrite IH. set_solver.
    + rewrite !elem_of_cons, IH. destruct (decide (x = y)); set_solver.
Qed.

Lemma NoDup_unseen seen l : NoDup (unseen seen l).
Proof.
  revert seen. induction l as [|y l IH]; intros seen; cbn; [constructor|].
  destruct (decide (y ∈ seen)); [done|]. constructor; [|done].
  rewrite elem_of_unseen. set_solver.
Qed.

Lemma unseen_positions pre l :
  unseen (list_to_set pre) l
  = omap (λ i, x ← l !! i;
               if decide (x ∈ pre ++ take i l) then None else Some x)
         (seq 0 (length l)).
Proof.
  revert pre. induction l as [|y l IH]; intros pre; [done|].
  cbn [unseen length seq omap list_omap lookup list_lookup take mbind option_bind].
  rewrite app_nil_r, <- fmap_S_seq.
  assert (omap (λ i, x ← (y :: l) !! i;
                 if decide (x ∈ pre ++ take i (y :: l)) then None else Some x)
            (S <$> seq 0 (length l))
          = omap (λ i, x ← l !! i;
                 if decide (x ∈ (pre ++ [y]) ++ take i l) then None else Some x)
            (seq 0 (length l))) as ->.
  { rewrite omap_fmap. apply omap_ext_same. intros i. cbn.
    by rewrite <- app_assoc. }
  destruct (decide (y ∈ list_to_set pre)) as [Hy|Hy];
    rewrite elem_of_list_to_set in Hy.
  - rewrite decide_True by done. rewrite IH.
    apply omap_ext_same. intros i. destruct (l !! i) as [x|]; [|done]. cbn.
    apply decide_ext. rewrite !elem_of_app. set_solver.
  - rewrite decide_False by done. f_equal.
    replace ({[y]} ∪ list_to_set pre : gset pystr) with (list_to_set (pre ++ [y]) : gset pystr)
      by (rewrite list_to_set_app_L; set_solver).
    apply IH.
Qed.

Lemma unseen_first_occurrences l : unseen ∅ l = spec_first_occurrences l.
Proof. apply (unseen_positions []). Qed.

(** ** The window of the last week *)

Lemma date_sub_days_spec t k a :
  valid_date t → date_sub_days t k = Some a →
  valid_date a ∧ toordinal a = toordinal t - k.
Proof.
  intros Ht. unfold date_sub_days.
  destruct (_ && _) eqn:E; [|done]. intros [= <-].
  apply andb_true_iff in E as [E1%Z.ltb_lt E2%Z.leb_le].
  apply fromordinal_spec. lia.
Qed.

Lemma date_sub_days_Some t k :
  valid_date t → 0 ≤ k < toordinal t →
  date_sub_days t k = Some (fromordinal (toordinal t - k)).
Proof.
  intros Ht Hk. pose proof (toordinal_bounds t Ht). unfold date_sub_days.
  rewrite (proj2 (andb_true_iff _ _)); [done|].
  rewrite Z.ltb_lt, Z.leb_le. lia.
Qed.

Lemma date_sub_days_None t k : toordinal t ≤ k → date_sub_days t k = None.
Proof.
  intros Hk. unfold date_sub_days.
  destruct (Z.ltb_spec 0 (toordinal t - k)); [lia|done].
Qed.

Lemma in_last_week_window t a n :
  valid_date t → valid_date n.1 → date_sub_days t 7 = Some a →
  in_last_week a t n = true ↔ spec_in_window t n.
Proof.
  intros Ht Hn [Ha Hord]%date_sub_days_spec; [|done].
  unfold in_last_week, spec_in_window.
  rewrite andb_true_iff, date_leb_iff, date_ltb_iff by done. lia.
Qed.

Lemma filter_ext_elem {A} (P Q : A → Prop) `{!∀ x, Decision (P x)}
    `{!∀ x, Decision (Q x)} (l : list A) :
  (∀ x, x ∈ l → P x ↔ Q x) → filter P l = filter Q l.
Proof.
  induction l as [|x l IH]; intros Hall; [done|].
  rewrite !filter_cons. rewrite IH by (intros; apply Hall; by right).
  pose proof (Hall x (list_elem_of_here _ _)) as Hx.
  destruct (decide (P x)), (decide (Q x)); tauto.
Qed.

Lemma recent_notes_window nd w t a :
  valid_date t → date_sub_days t 7 = Some a →
  filter (λ n, in_last_week a t n = true) (notes_of nd w) = window_notes nd w t.
Proof.
  intros Ht Ha. apply filter_ext_elem. intros [d n] Hin.
  apply in_last_week_window; [done| |done]. by eapply notes_of_valid.
Qed.

(** ** [create_daily_note] *)

Lemma same_fs_refl w : same_fs w w.
Proof. done. Qed.

Lemma same_fs_log e w w' : same_fs w w' → same_fs w (log e w').
Proof. done. Qed.

Lemma same_fs_trans w1 w2 w3 : same_fs w1 w2 → same_fs w2 w3 → same_fs w1 w3.
Proof. unfold same_fs. intuition congruence. Qed.

Lemma same_fs_entries w w' : same_fs w w' → entries w' = entries w.
Proof. intros [H _]. unfold entries. by rewrite H. Qed.

Lemma extract_same_fs n w : same_fs w (extract_undone_todos n w).2.
Proof.
  unfold extract_undone_todos, bind, read_text.
  by destruct (entries w !! n) as [[?|]|].
Qed.

Lemma aggregate_loop_same_fs notes st w : same_fs w (aggregate_loop notes st w).2.
Proof.
  revert st w. induction notes as [|[d n] notes IH]; intros st w; [done|].
  cbn [aggregate_loop]. unfold bind at 1.
  pose proof (extract_same_fs n w) as Hx.
  destruct (extract_undone_todos n w) as [[ts|e] w1]; [|done].
  eapply same_fs_trans; [exact Hx|apply IH].
Qed.

Lemma create_today nd w :
  create_daily_note nd None w = create_daily_note nd (Some (today w)) w.
Proof. done. Qed.

Lemma is_Some_None_false {A} (o : option A) : o = None → ¬ is_Some o.
Proof. intros -> [??]. done. Qed.

Lemma create_exists nd w t :
  is_Some (entries w !! note_name t) →
  create_daily_note nd (Some t) w = (Ok PyNone, log (EvExists (note_name t)) w).
Proof.
  intros Hex. unfold create_daily_note, bind at 1 2, ret at 1, path_exists.
  fold (note_name t). by rewrite bool_decide_eq_true_2.
Qed.

Lemma create_overflow nd w t :
  entries w !! note_name t = None → date_sub_days t 7 = None →
  create_daily_note nd (Some t) w
  = (Raise OverflowError, log (EvExists (note_name t)) w).
Proof.
  intros Hex Hsub. unfold create_daily_note, bind at 1 2, ret at 1, path_exists.
  fold (note_name t).
  rewrite bool_decide_eq_false_2 by (by apply is_Some_None_false).
  unfold bind at 1. by rewrite Hsub.
Qed.

(** The run on the path that generates the note, up to the aggregation. *)
Lemma create_fresh nd w t :
  valid_date t → entries w !! note_name t = None → 7 < toordinal t →
  create_daily_note nd (Some t) w =
  match aggregate_todos (window_notes nd w t)
          (log EvGlob (log (EvExists (note_name t)) w)) with
  | (Ok todos, w2) =>
      match mkdir_p w2 with
      | (Ok _, w3) =>
          match write_text (note_name t) (render_body t todos) w3 with
          | (Ok _, w4) => (Ok PyNone, w4)
          | (Raise e, w4) => (Raise e, w4)
          end
      | (Raise e, w3) => (Raise e, w3)
      end
  | (Raise e, w2) => (Raise e, w2)
  end.
Proof.
  intros Ht Hex Hord.
  pose proof (date_sub_days_Some t 7 Ht ltac:(lia)) as Hsub.
  unfold create_daily_note, bind at 1 2, ret at 1, path_exists.
  fold (note_name t).
  rewrite bool_decide_eq_false_2 by (by apply is_Some_None_false).
  unfold bind at 1. rewrite Hsub. unfold ret at 1.
  unfold bind at 1. rewrite get_all_notes_run.
  change (notes_of nd (log _ w)) with (notes_of nd w).
  rewrite (recent_notes_window nd w t _ Ht Hsub).
  unfold bind at 1.
  destruct (aggregate_todos _ _) as [[todos|e] w2]; [|done].
  unfold bind at 1. destruct (mkdir_p w2) as [[[]|e] w3]; [|done].
  unfold bind at 1. by destruct (write_text _ _ w3) as [[[]|e] w4].
Qed.

Lemma aggregate_todos_readable notes tss w :
  mapM (note_todos w) notes = Some tss →
  aggregate_todos notes w
  = (Ok (spec_first_occurrences (concat tss)), logs (EvRead <$> notes.*2) w).
Proof.
  intros Hm. unfold aggregate_todos.
  rewrite (aggregate_loop_readable _ _ _ _ Hm), foldl_add_todo.
  cbn [snd app]. by rewrite unseen_first_occurrences.
Qed.

Lemma note_todos_log e w n : note_todos (log e w) n = note_todos w n.
Proof. done. Qed.

(** The run that generates the note: the target is absent, its window is
    representable, every note of the window can be read, and the system
    lets the directory be created and the file be written. *)
Lemma create_success nd w t tss :
  valid_date t → entries w !! note_name t = None → 7 < toordinal t →
  mapM (note_todos w) (window_notes nd w t) = Some tss →
  (notes_dir w = None → mkdir_ok w = true) → write_ok w = true →
  let body := render_body t (spec_first_occurrences (concat tss)) in
  create_daily_note nd (Some t) w
  = (Ok PyNone,
     mkworld (Some (<[note_name t := Text body]> (entries w)))
       (mkdir_ok w) (write_ok w) (failed_write w) (today w)
       (trace w ++ [EvExists (note_name t); EvGlob]
        ++ (EvRead <$> (window_notes nd w t).*2)
        ++ [EvMkdir; EvWrite (note_name t) body])).
Proof.
  intros Ht Hex Hord Hm Hmk Hwr body.
  rewrite create_fresh by done.
  rewrite (aggregate_todos_readable _ tss) by done.
  fold body. unfold mkdir_p, write_text, logs, log, set_dir, entries in *.
  cbn [notes_dir mkdir_ok write_ok failed_write today trace].
  destruct (notes_dir w) as [m|] eqn:Hdir; cbn [notes_dir mkdir_ok write_ok failed_write today trace].
  - rewrite Hwr. cbn. do 2 f_equal. by rewrite <- !app_assoc.
  - rewrite Hmk by done. cbn [notes_dir mkdir_ok write_ok failed_write today trace].
    rewrite Hwr. cbn. do 2 f_equal. by rewrite <- !app_assoc.
Qed.

(** A note of the window that cannot be read fails the run, which writes
    nothing. *)
Lemma create_unreadable nd w t :
  valid_date t → entries w !! note_name t = None → 7 < toordinal t →
  Exists (λ n, note_todos w n = None) (window_notes nd w t) →
  ∃ d n w', create_daily_note nd (Some t) w = (Raise (ReadError n), w')
    ∧ (d, n) ∈ window_notes nd w t ∧ note_text w n = None ∧ same_fs w w'.
Proof.
  intros Ht Hex Hord Hun. rewrite create_fresh by done.
  unfold aggregate_todos.
  pose proof (aggregate_loop_same_fs (window_notes nd w t) (∅, [])
    (log EvGlob (log (EvExists (note_name t)) w))) as Hfs.
  destruct (aggregate_loop_unreadable (window_notes nd w t) (∅, [])
    (log EvGlob (log (EvExists (note_name t)) w)))
    as (d & n & w' & Hrun & Hin & Htext & _); [done|].
  rewrite Hrun in Hfs |- *. by exists d, n, w'.
Qed.

(** The outcomes of a run: the note was there; the run failed and the
    directory holds what it held; the note was written; or the write was
    refused after [open] had created the file, which is left behind. *)
Lemma create_outcome nd w t r w' :
  valid_date t → create_daily_note nd (Some t) w = (r, w') →
  (is_Some (entries w !! note_name t) ∧ r = Ok PyNone
   ∧ w' = log (EvExists (note_name t)) w)
  ∨ (entries w !! note_name t = None ∧ (∃ e, r = Raise e)
     ∧ entries w' = entries w)
  ∨ (entries w !! note_name t = None ∧ r = Ok PyNone
     ∧ ∃ body, entries w' = <[note_name t := Text body]> (entries w)
         ∧ last (trace w') = Some (EvWrite (note_name t) body))
  ∨ (entries w !! note_name t = None ∧ r = Raise WriteError
     ∧ write_ok w = false
     ∧ ∃ remains, failed_write w = Some remains
         ∧ entries w' = <[note_name t := remains]> (entries w)).
Proof.
  intros Ht Hrun.
  destruct (entries w !! note_name t) as [x|] eqn:Hex.
  { rewrite create_exists in Hrun by (rewrite Hex; eauto).
    injection Hrun as <- <-. left. eauto. }
  right.
  destruct (decide (7 < toordinal t)) as [Hord|Hord].
  2:{ rewrite create_overflow in Hrun by (try apply date_sub_days_None; done || lia).
      injection Hrun as <- <-. left. eauto. }
  rewrite create_fresh in Hrun by done.
  pose proof (aggregate_loop_same_fs (window_notes nd w t) (∅, [])
    (log EvGlob (log (EvExists (note_name t)) w))) as Hfs.
  unfold aggregate_todos in Hrun.
  destruct (aggregate_loop _ _ _) as [[todos|e] w2]; cbn [snd] in Hfs.
  2:{ injection Hrun as <- <-. left. split_and!; eauto. by apply same_fs_entries. }
  destruct Hfs as (Hdir & Hmk & Hwr & Hfw & _).
  destruct w2 as [dir mk wr fw td tr], w as [dir0 mk0 wr0 fw0 td0 tr0].
  unfold mkdir_p, write_text, entries, log, set_dir in *.
  cbn [notes_dir mkdir_ok write_ok failed_write today trace] in *.
  subst dir mk wr fw.
  destruct dir0 as [m|], mk0, wr0, fw0 as [remains|]; cbn in Hrun;
    injection Hrun as <- <-;
    cbn [notes_dir trace default];
    first [ left; split_and!; eauto; done
          | right; left; (split_and!; [done..|]); exists (render_body t todos);
            (split; [done|]); by rewrite last_snoc
          | right; right; split_and!; eauto ].
Qed.

(** * The claims *)

(** ** C4 and C5: [get_all_notes] *)

(** C4, as stated, fails: the stem [2024-3-5] is not in the exact
    zero-padded format, and yet the scan returns its file, dated
    2024-03-05. *)
Lemma C4_unpadded_stem_accepted :
  spec_exact_format (stem (py "2024-3-5.md")) = false
  ∧ (get_all_notes no_unicode_digit
       (dir_with [(py "2024-3-5.md", Text [])])).1
    = Ok [(mkdate 2024 3 5, py "2024-3-5.md")].
Proof. split; vm_compute; reflexivity. Qed.

(** C5, as stated, fails: the files [2024-03-05.md] and [2024-3-5.md] are
    both returned, with the same date. *)
Lemma C5_two_notes_one_date :
  (get_all_notes no_unicode_digit
     (dir_with [(py "2024-03-05.md", Text []); (py "2024-3-5.md", Text [])])).1
  = Ok [(mkdate 2024 3 5, py "2024-03-05.md");
        (mkdate 2024 3 5, py "2024-3-5.md")].
Proof. vm_compute; reflexivity. Qed.

(** C5, amended: the scan returns every file whose stem is read as a date,
    each file once; nothing is excluded or merged for sharing a date, and
    two entries share a date only when their stems spell it differently:
    among the files named by the zero-padded text of their date there is at
    most one per date. *)
Theorem C5_one_note_per_file (nd : N → option Z) (w : world) :
  ∃ notes,
    (get_all_notes nd w).1 = Ok notes
    ∧ NoDup notes.*2
    ∧ (∀ d n, is_Some (entries w !! n) → glob_md n = true →
              strptime_Ymd nd (stem n) = Some d → (d, n) ∈ notes)
    ∧ (∀ d n1 n2, (d, n1) ∈ notes → (d, n2) ∈ notes →
                  stem n1 = padded_Ymd d → stem n2 = padded_Ymd d →
                  n1 = n2).
Proof.
  exists (notes_of nd w). split_and!.
  - done.
  - apply NoDup_notes_of_names.
  - intros d n ? ? ?. by apply elem_of_notes_of.
  - intros d n1 n2 (_ & Hg1 & _)%elem_of_notes_of (_ & Hg2 & _)%elem_of_notes_of H1 H2.
    rewrite (glob_md_stem n1), (glob_md_stem n2); try done.
    + by rewrite H1, H2.
    + rewrite H2. apply padded_no_dot.
    + rewrite H1. apply padded_no_dot.
Qed.

(** ** C6 and C10: [extract_undone_todos] *)



Lemma single_line_digit v : 0 ≤ v ≤ 9 → is_linebreak (digit_char v) = false.
Proof.
  intros Hv. unfold is_linebreak, in_range, digit_char.
  repeat (apply orb_false_iff; split);
    rewrite ?andb_false_iff, ?N.leb_gt, ?N.eqb_neq; lia.
Qed.

Lemma single_line_strftime d : single_line (strftime_Ymd d).
Proof.
  unfold strftime_Ymd, year_text, single_line.
  destruct (year d <? 10); [|destruct (year d <? 100); [|destruct (year d <? 1000)]];
    cbn [app];
    repeat (apply Forall_cons; split); try apply Forall_nil; try done;
    apply single_line_digit; Z.to_euclidean_division_equations; lia.
Qed.

Lemma single_line_body_lines d ts :
  Forall single_line ts → Forall single_line (body_lines d ts).
Proof.
  intros Hts. unfold body_lines.
  assert (single_line TODO_PREFIX) as Hp by (by repeat constructor).
  apply Forall_app; split; [|apply Forall_app; split].
  - apply Forall_cons; split.
    { apply Forall_app. split; [by repeat constructor|apply single_line_strftime]. }
    apply Forall_cons; split; [constructor|].
    apply Forall_cons; split; [by repeat constructor|constructor].
  - destruct ts as [|t ts]; cbn [task_lines]; [by repeat constructor|].
    apply Forall_fmap. eapply Forall_impl; [exact Hts|].
    intros x Hx. by apply Forall_app.
  - apply Forall_cons; split; [constructor|].
    apply Forall_cons; split; [by repeat constructor|].
    apply Forall_cons; split; [by repeat constructor|constructor].
Qed.

Lemma omap_match_task_lines ts :
  Forall (λ x, x ≠ [] ∧ single_line x) ts →
  omap TODO_PATTERN_match (task_lines ts) = ts.
Proof.
  destruct ts as [|t ts]; [done|]. cbn [task_lines].
  generalize (t :: ts). clear. intros ts.
  induction 1 as [|x l [Hne Hx] _ IH]; [done|].
  cbn [map omap list_omap].
  rewrite (proj2 (TODO_PATTERN_match_line (TODO_PREFIX ++ x) x
             ltac:(apply Forall_app; split; [by repeat constructor|done])))
    by done.
  cbv beta iota. f_equal. exact IH.
Qed.

Lemma todos_of_render d ts :
  Forall (λ x, x ≠ [] ∧ single_line x) ts → todos_of (render_body d ts) = ts.
Proof.
  intros Hts. unfold todos_of.
  rewrite render_body_unlines, splitlines_unlines, scan_lines_omap.
  - unfold body_lines. rewrite !omap_app, omap_match_task_lines by done.
    cbn. apply app_nil_r.
  - apply single_line_body_lines. eapply Forall_impl; [exact Hts|]. by intros ? [??].
Qed.

(** C10: extraction inverts rendering.  A note that holds the text rendered
    for the todos [ts], each of them a non-empty text of one line, gives back
    [ts] in order; the text rendered for no todo gives none, its placeholder
    line [- [ ] ] being no match of the pattern. *)
Theorem C10_render_extract_roundtrip (w : world) (n : pystr) (d : date)
    (ts : list pystr) :
  note_text w n = Some (render_body d ts) →
  Forall (λ x, x ≠ [] ∧ single_line x) ts →
  extract_undone_todos n w = (Ok ts, log (EvRead n) w)
  ∧ todos_of (render_body d ts) = ts
  ∧ todos_of (render_body d []) = []
  ∧ TODO_PATTERN_match TODO_PREFIX = None.
Proof.
  intros Htext Hts. split_and!.
  - by rewrite (extract_readable _ _ _ Htext), todos_of_render.
  - by apply todos_of_render.
  - by apply todos_of_render.
  - done.
Qed.

Lemma C10_render_extract_roundtrip_witness :
  extract_undone_todos (py "2024-03-10.md")
    (dir_with [(py "2024-03-10.md",
                Text (render_body (mkdate 2024 3 10)
                        [py "buy milk"; py "call bob"; py "buy milk"]))])
  = (Ok [py "buy milk"; py "call bob"; py "buy milk"],
     log (EvRead (py "2024-03-10.md"))
       (dir_with [(py "2024-03-10.md",
                Text (render_body (mkdate 2024 3 10)
                        [py "buy milk"; py "call bob"; py "buy milk"]))])).
Proof.
  refine (proj1 (C10_render_extract_roundtrip
    (dir_with [(py "2024-03-10.md",
                Text (render_body (mkdate 2024 3 10)
                        [py "buy milk"; py "call bob"; py "buy milk"]))])
    (py "2024-03-10.md") (mkdate 2024 3 10)
    [py "buy milk"; py "call bob"; py "buy milk"] eq_refl _)).
  repeat constructor; discriminate.
Defined.

(** ** C7 and C8: [aggregate_todos] *)

Lemma elem_of_first_occurrences l x : x ∈ spec_first_occurrences l ↔ x ∈ l.
Proof. rewrite <- unseen_first_occurrences, elem_of_unseen. set_solver. Qed.

Lemma NoDup_first_occurrences l : NoDup (spec_first_occurrences l).
Proof. rewrite <- unseen_first_occurrences. apply NoDup_unseen. Qed.

(** C7: when every note of the sequence can be read, with [tss] the todos of
    the notes in order, the aggregation returns the first occurrences of the
    sequence of all of them, that is the texts at the positions whose text
    does not occur at an earlier position, in their order: each distinct
    text once.  It touches no file.  The empty sequence of notes gives the
    empty list. *)
Theorem C7_aggregate_first_occurrences (w : world)
    (notes : list (date * pystr)) (tss : list (list pystr)) :
  mapM (note_todos w) notes = Some tss →
  ∃ todos w',
    aggregate_todos notes w = (Ok todos, w')
    ∧ todos = spec_first_occurrences (concat tss)
    ∧ NoDup todos
    ∧ (∀ x, x ∈ todos ↔ x ∈ concat tss)
    ∧ same_fs w w'
    ∧ aggregate_todos [] w = (Ok [], w).
Proof.
  intros Hm. eexists _, _. split_and!.
  - by apply aggregate_todos_readable.
  - done.
  - apply NoDup_first_occurrences.
  - apply elem_of_first_occurrences.
  - done.
  - done.
Qed.

Lemma C7_aggregate_first_occurrences_witness :
  ∃ todos w',
    aggregate_todos
      [(mkdate 2024 3 5, py "2024-03-05.md"); (mkdate 2024 3 6, py "2024-03-06.md")]
      (dir_with
         [(py "2024-03-05.md", Text (unlines [py "- [ ] b"; py "- [ ] a"; py "- [ ] b"]));
          (py "2024-03-06.md", Text (unlines [py "- [ ] a"; py "- [ ] c"]))])
    = (Ok todos, w')
    ∧ todos = [py "b"; py "a"; py "c"].
Proof.
  destruct (C7_aggregate_first_occurrences
    (dir_with
         [(py "2024-03-05.md", Text (unlines [py "- [ ] b"; py "- [ ] a"; py "- [ ] b"]));
          (py "2024-03-06.md", Text (unlines [py "- [ ] a"; py "- [ ] c"]))])
    [(mkdate 2024 3 5, py "2024-03-05.md"); (mkdate 2024 3 6, py "2024-03-06.md")]
    [[py "b"; py "a"; py "b"]; [py "a"; py "c"]] eq_refl)
    as (todos & w' & Hrun & Htodos & _).
  exists todos, w'. split; [exact Hrun|]. rewrite Htodos. reflexivity.
Defined.

Lemma note_todos_None w n : note_todos w n = None ↔ note_text w n.2 = None.
Proof. unfold note_todos. by destruct (note_text w n.2). Qed.

(** C8: a note that cannot be read or decoded makes [extract_undone_todos]
    raise; the aggregation over a sequence that holds such a note raises the
    error of the first of them and returns no list; and so does the
    generation of a note whose window holds one, which then writes and
    creates nothing. *)
Theorem C8_read_error_propagates (nd : N → option Z) (w : world) :
  (∀ n, note_text w n = None →
     extract_undone_todos n w = (Raise (ReadError n), log (EvRead n) w))
  ∧ (∀ notes, Exists (λ n, note_text w n.2 = None) notes →
       ∃ d n w', aggregate_todos notes w = (Raise (ReadError n), w')
         ∧ (d, n) ∈ notes ∧ note_text w n = None ∧ same_fs w w')
  ∧ (∀ t, valid_date t → entries w !! note_name t = None → 7 < toordinal t →
       Exists (λ n, note_text w n.2 = None) (window_notes nd w t) →
       ∃ d n w', create_daily_note nd (Some t) w = (Raise (ReadError n), w')
         ∧ (d, n) ∈ window_notes nd w t ∧ note_text w n = None
         ∧ same_fs w w').
Proof.
  split_and!.
  - apply extract_unreadable.
  - intros notes Hex. unfold aggregate_todos.
    pose proof (aggregate_loop_same_fs notes (∅, []) w) as Hfs.
    destruct (aggregate_loop_unreadable notes (∅, []) w)
      as (d & n & w' & Hrun & Hin & Htext & _).
    { eapply Exists_impl; [exact Hex|]. intros x. by rewrite note_todos_None. }
    rewrite Hrun in Hfs |- *. by exists d, n, w'.
  - intros t Ht Hnone Hord Hex. apply create_unreadable; try done.
    eapply Exists_impl; [exact Hex|]. intros x. by rewrite note_todos_None.
Qed.

Lemma C8_read_error_propagates_witness :
  ∃ d n w',
    create_daily_note no_unicode_digit (Some (mkdate 2024 3 10))
      (dir_with [(py "2024-03-05.md", Text (unlines [py "- [ ] buy milk"]));
                 (py "2024-03-07.md", Unreadable)])
    = (Raise (ReadError n), w')
    ∧ (d, n) ∈ window_notes no_unicode_digit
         (dir_with [(py "2024-03-05.md", Text (unlines [py "- [ ] buy milk"]));
                    (py "2024-03-07.md", Unreadable)]) (mkdate 2024 3 10)
    ∧ note_text
        (dir_with [(py "2024-03-05.md", Text (unlines [py "- [ ] buy milk"]));
                   (py "2024-03-07.md", Unreadable)]) n = None
    ∧ same_fs
        (dir_with [(py "2024-03-05.md", Text (unlines [py "- [ ] buy milk"]));
                   (py "2024-03-07.md", Unreadable)]) w'.
Proof.
  apply (proj2 (proj2 (C8_read_error_propagates no_unicode_digit
    (dir_with [(py "2024-03-05.md", Text (unlines [py "- [ ] buy milk"]));
               (py "2024-03-07.md", Unreadable)])))
    (mkdate 2024 3 10) eq_refl eq_refl eq_refl).
  apply Exists_exists. exists (mkdate 2024 3 7, py "2024-03-07.md").
  split; [|reflexivity]. vm_compute. apply list_elem_of_In. right; left; reflexivity.
Defined.

(** ** C1, C2, C3 and C9: [create_daily_note] *)

(** C9: in a directory that exists, is empty and lets files be written, the
    call for 2024-03-10 returns after it created [2024-03-10.md] as the only
    file, with the seven lines of the empty note, each ended by a line
    feed; it checked the name, listed the directory, made sure of the
    directory and wrote the file. *)
Theorem C9_empty_directory_note (nd : N → option Z) (mk : bool)
    (fw : option node) (td : date) (tr : list event) :
  create_daily_note nd (Some (mkdate 2024 3 10))
    (mkworld (Some ∅) mk true fw td tr)
  = (Ok PyNone,
     mkworld
       (Some {[ py "2024-03-10.md" :=
                Text (unlines [py "# 2024-03-10"; []; py "## Tasks"; py "- [ ] ";
                               []; py "## Notes"; py "- "]) ]})
       mk true fw td
       (tr ++ [EvExists (py "2024-03-10.md"); EvGlob; EvMkdir;
               EvWrite (py "2024-03-10.md")
                 (unlines [py "# 2024-03-10"; []; py "## Tasks"; py "- [ ] ";
                           []; py "## Notes"; py "- "])])).
Proof.
  rewrite (create_success nd _ (mkdate 2024 3 10) []); try done.
Qed.

(** C1, as stated, fails: the call that creates the note of 2024-03-10 in an
    empty directory returns [None], no boolean, and so does the call that
    finds the note in place. *)
Lemma C1_returns_no_boolean :
  (create_daily_note no_unicode_digit (Some (mkdate 2024 3 10))
     (dir_with [])).1 = Ok PyNone
  ∧ is_Some (entries (create_daily_note no_unicode_digit (Some (mkdate 2024 3 10))
                        (dir_with [])).2 !! py "2024-03-10.md")
  ∧ (create_daily_note no_unicode_digit (Some (mkdate 2024 3 10))
       (dir_with [(py "2024-03-10.md", Text [])])).1 = Ok PyNone.
Proof. split_and!; [vm_compute; reflexivity|vm_compute; eauto|vm_compute; reflexivity]. Qed.

Lemma entries_Some m mk wr fw td tr :
  entries (mkworld (Some m) mk wr fw td tr) = m.
Proof. done. Qed.

Lemma readable_mapM w notes :
  Forall (λ n, is_Some (note_text w n.2)) notes →
  ∃ tss, mapM (note_todos w) notes = Some tss.
Proof.
  intros Hall. apply mapM_is_Some. eapply Forall_impl; [exact Hall|].
  intros n [t Ht]. unfold note_todos; cbn. rewrite Ht. eauto.
Qed.

(** C1, amended: the call returns [None] on both paths, and no boolean.
    When the file named by the date is in the directory, it returns [None]
    at once and leaves the world as it was, but for the trace of the check.
    Whenever the call returns, it returns [None] and the file is in the
    directory.  And the call does create the note, and returns [None], when
    the file is absent, the date is past the first week of the calendar, the
    notes of the window can be read and the system lets the directory be
    created and the file be written. *)
Theorem C1_create_returns_None (nd : N → option Z) (w : world) (t : date) :
  valid_date t →
  (is_Some (entries w !! note_name t) →
     create_daily_note nd (Some t) w
     = (Ok PyNone, log (EvExists (note_name t)) w))
  ∧ (∀ v w', create_daily_note nd (Some t) w = (Ok v, w') →
       v = PyNone ∧ is_Some (entries w' !! note_name t))
  ∧ (entries w !! note_name t = None → 7 < toordinal t →
     Forall (λ n, is_Some (note_text w n.2)) (window_notes nd w t) →
     (notes_dir w = None → mkdir_ok w = true) → write_ok w = true →
     ∃ w', create_daily_note nd (Some t) w = (Ok PyNone, w')
       ∧ is_Some (entries w' !! note_name t)).
Proof.
  intros Ht. split_and!.
  - apply create_exists.
  - intros v w' Hrun.
    destruct (create_outcome nd w t _ w' Ht Hrun)
      as [(Hs & Hv & ->)|[(_ & [e ?] & _)|[(_ & Hv & body & -> & _)|(_ & ? & _)]]];
      try done; injection Hv as ->; (split; [done|]).
    + done.
    + rewrite lookup_insert_eq. eauto.
  - intros Hnone Hord [tss Htss]%readable_mapM Hmk Hwr.
    rewrite (create_success nd w t tss) by done.
    eexists. split; [done|]. rewrite entries_Some, lookup_insert_eq. eauto.
Qed.

Lemma C1_create_returns_None_witness :
  ∃ w', create_daily_note no_unicode_digit (Some (mkdate 2024 3 10))
          (dir_with [(py "2024-03-05.md", Text (unlines [py "- [ ] buy milk"]))])
        = (Ok PyNone, w')
    ∧ is_Some (entries w' !! note_name (mkdate 2024 3 10)).
Proof.
  apply (proj2 (proj2 (C1_create_returns_None no_unicode_digit
    (dir_with [(py "2024-03-05.md", Text (unlines [py "- [ ] buy milk"]))])
    (mkdate 2024 3 10) eq_refl)) eq_refl eq_refl); [|discriminate|reflexivity].
  vm_compute. repeat constructor. eauto.
Defined.

(** C2: when the file named by the date is in the directory, the call
    returns with the directory, and all else but the trace, as it was, and
    the trace grows by the check of the name alone: no listing, no read, no
    write.  After a call that returned, a second call for the same date is
    such a call: it leaves the file as the first call left it, which is the
    text the first call wrote when the first call created the note. *)
Theorem C2_existing_note_untouched (nd : N → option Z) (w : world) (t : date) :
  valid_date t →
  (is_Some (entries w !! note_name t) →
     ∃ w', create_daily_note nd (Some t) w = (Ok PyNone, w')
       ∧ same_fs w w' ∧ trace w' = trace w ++ [EvExists (note_name t)])
  ∧ (∀ v w1, create_daily_note nd (Some t) w = (Ok v, w1) →
       ∃ w2, create_daily_note nd (Some t) w1 = (Ok PyNone, w2)
         ∧ same_fs w1 w2 ∧ trace w2 = trace w1 ++ [EvExists (note_name t)]
         ∧ (entries w !! note_name t = None →
            ∃ body, last (trace w1) = Some (EvWrite (note_name t) body)
              ∧ entries w1 !! note_name t = Some (Text body)
              ∧ entries w2 !! note_name t = Some (Text body))).
Proof.
  intros Ht. split.
  - intros Hex. rewrite create_exists by done. by eexists.
  - intros v w1 Hrun.
    destruct (create_outcome nd w t _ w1 Ht Hrun)
      as [(Hex & _ & ->)|[(_ & [e ?] & _)
          |[(Hnone & _ & body & Heq & Hlast)|(_ & ? & _)]]];
      [|done| |done].
    + rewrite create_exists by done. eexists. split_and!; [done..|].
      intros Hnone. rewrite Hnone in Hex. by destruct Hex.
    + assert (entries w1 !! note_name t = Some (Text body)) as Hlook
        by (by rewrite Heq, lookup_insert_eq).
      rewrite create_exists by (rewrite Hlook; eauto).
      eexists. split_and!; [done..|]. intros _. exists body. by rewrite entries_log.
Qed.

Lemma C2_existing_note_untouched_witness :
  ∃ w', create_daily_note no_unicode_digit (Some (mkdate 2024 3 10))
          (dir_with [(py "2024-03-10.md", Text (py "kept"));
                     (py "2024-03-05.md", Text (unlines [py "- [ ] buy milk"]))])
        = (Ok PyNone, w')
    ∧ same_fs (dir_with [(py "2024-03-10.md", Text (py "kept"));
                     (py "2024-03-05.md", Text (unlines [py "- [ ] buy milk"]))]) w'
    ∧ trace w' = [EvExists (py "2024-03-10.md")].
Proof.
  apply (proj1 (C2_existing_note_untouched no_unicode_digit
    (dir_with [(py "2024-03-10.md", Text (py "kept"));
               (py "2024-03-05.md", Text (unlines [py "- [ ] buy milk"]))])
    (mkdate 2024 3 10) eq_refl)).
  vm_compute. eauto.
Defined.

(** C3, as stated, fails for the targets of the first week of the calendar:
    the note of 0001-01-01 lies in the window of the target 0001-01-03, and
    the call raises [OverflowError] when it computes the start of the
    window, before it lists the directory. *)
Lemma C3_window_start_out_of_range :
  (mkdate 1 1 1, py "0001-01-01.md")
    ∈ window_notes no_unicode_digit
        (dir_with [(py "0001-01-01.md", Text (unlines [py "- [ ] x"]))])
        (mkdate 1 1 3)
  ∧ (create_daily_note no_unicode_digit (Some (mkdate 1 1 3))
       (dir_with [(py "0001-01-01.md", Text (unlines [py "- [ ] x"]))])).1
    = Raise OverflowError
  ∧ notes_dir
      (create_daily_note no_unicode_digit (Some (mkdate 1 1 3))
         (dir_with [(py "0001-01-01.md", Text (unlines [py "- [ ] x"]))])).2
    = notes_dir (dir_with [(py "0001-01-01.md", Text (unlines [py "- [ ] x"]))]).
Proof.
  split_and!; [vm_compute; apply list_elem_of_here | vm_compute; reflexivity..].
Qed.

Lemma elem_of_window_notes nd w t d n :
  (d, n) ∈ window_notes nd w t ↔
  (d, n) ∈ notes_of nd w ∧ toordinal t - 7 ≤ toordinal d < toordinal t.
Proof. unfold window_notes. rewrite list_elem_of_filter. unfold spec_in_window. tauto. Qed.

Lemma elem_of_concat_todos w notes tss x :
  mapM (note_todos w) notes = Some tss →
  x ∈ concat tss ↔
  ∃ d n text, (d, n) ∈ notes ∧ note_text w n = Some text ∧ x ∈ todos_of text.
Proof.
  rewrite mapM_Some. induction 1 as [|[d n] ts notes tss Hn _ IH]; cbn [concat].
  - split; [by intros ?%elem_of_nil|]. by intros (? & ? & ? & ?%elem_of_nil & _).
  - unfold note_todos in Hn; cbn in Hn.
    destruct (note_text w n) as [text|] eqn:E; [|done]. injection Hn as <-.
    rewrite elem_of_app, IH. split.
    + intros [Hx|(d' & n' & text' & Hin & Ht & Hx)].
      * exists d, n, text. split_and!; [apply list_elem_of_here|done..].
      * exists d', n', text'. split_and!; [by apply list_elem_of_further|done..].
    + intros (d' & n' & text' & Hin & Ht & Hx).
      apply elem_of_cons in Hin as [[= -> ->]|Hin].
      * left. congruence.
      * right. eauto 10.
Qed.

(** C3, amended: for a target date past the first week of the calendar
    (from 0001-01-08 on), a call that generates the note writes the text
    rendered for the todos aggregated from exactly the notes of the scan
    whose date [d] has [target - 7 days <= d < target]: a todo is in the
    Tasks section if and only if it is an unfinished todo of such a note.
    The note dated [target - 7 days] is among them; the notes dated
    [target] and [target - 8 days] are not. *)
Theorem C3_window_exact (nd : N → option Z) (w : world) (t : date)
    (tss : list (list pystr)) :
  valid_date t → 7 < toordinal t →
  entries w !! note_name t = None →
  mapM (note_todos w) (window_notes nd w t) = Some tss →
  (notes_dir w = None → mkdir_ok w = true) → write_ok w = true →
  ∃ todos w',
    create_daily_note nd (Some t) w = (Ok PyNone, w')
    ∧ entries w' !! note_name t = Some (Text (unlines (body_lines t todos)))
    ∧ todos = spec_first_occurrences (concat tss)
    ∧ (∀ x, x ∈ todos ↔
         ∃ d n text, (d, n) ∈ notes_of nd w
           ∧ toordinal t - 7 ≤ toordinal d < toordinal t
           ∧ note_text w n = Some text ∧ x ∈ todos_of text)
    ∧ (∀ d n, (d, n) ∈ notes_of nd w → date_sub_days t 7 = Some d →
         (d, n) ∈ window_notes nd w t)
    ∧ (∀ d n, d = t ∨ date_sub_days t 8 = Some d →
         (d, n) ∉ window_notes nd w t).
Proof.
  intros Ht Hord Hnone Htss Hmk Hwr.
  exists (spec_first_occurrences (concat tss)). eexists. split_and!.
  - by apply create_success.
  - by rewrite entries_Some, lookup_insert_eq, render_body_unlines.
  - done.
  - intros x. rewrite elem_of_first_occurrences, (elem_of_concat_todos _ _ _ _ Htss).
    setoid_rewrite elem_of_window_notes. naive_solver.
  - intros d n Hin [_ Hd]%date_sub_days_spec; [|done].
    apply elem_of_window_notes. split; [done|lia].
  - intros d n [->|[_ Hd]%date_sub_days_spec]; [| |done];
      rewrite elem_of_window_notes; lia.
Qed.

Lemma C3_window_exact_witness :
  ∃ todos w',
    create_daily_note no_unicode_digit (Some (mkdate 2024 3 10))
      (dir_with [(py "2024-03-02.md", Text (unlines [py "- [ ] too old"]));
                 (py "2024-03-03.md", Text (unlines [py "- [ ] a week ago"]));
                 (py "2024-03-05.md",
                  Text (unlines [py "- [ ] buy milk"; py "- [x] done thing";
                                 py "- [ ] call bob"]));
                 (py "2024-3-10.md", Text (unlines [py "- [ ] today"]))])
    = (Ok PyNone, w')
    ∧ entries w' !! note_name (mkdate 2024 3 10)
      = Some (Text (unlines (body_lines (mkdate 2024 3 10) todos)))
    ∧ todos = [py "a week ago"; py "buy milk"; py "call bob"].
Proof.
  destruct (C3_window_exact no_unicode_digit
    (dir_with [(py "2024-03-02.md", Text (unlines [py "- [ ] too old"]));
               (py "2024-03-03.md", Text (unlines [py "- [ ] a week ago"]));
               (py "2024-03-05.md",
                Text (unlines [py "- [ ] buy milk"; py "- [x] done thing";
                               py "- [ ] call bob"]));
               (py "2024-3-10.md", Text (unlines [py "- [ ] today"]))])
    (mkdate 2024 3 10)
    [[py "a week ago"]; [py "buy milk"; py "call bob"]]
    eq_refl eq_refl eq_refl eq_refl ltac:(discriminate) eq_refl)
    as (todos & w' & Hrun & Hfile & Htodos & _).
  exists todos, w'. split_and!; [exact Hrun|exact Hfile|].
  rewrite Htodos. reflexivity.
Defined.

(** * Further properties of the program *)

(** ** [get_all_notes] *)

Lemma sort_collect_Permutation nd l1 l2 :
  l1 ≡ₚ l2 →
  merge_sort note_le (collect_notes nd l1) = merge_sort note_le (collect_notes nd l2).
Proof.
  intros Hperm. apply (StronglySorted_unique note_le).
  - apply StronglySorted_merge_sort; apply _.
  - apply StronglySorted_merge_sort; apply _.
  - rewrite !merge_sort_Permutation, !collect_notes_omap. by rewrite Hperm.
Qed.

(** X1: the order in which the system lists the directory does not show in
    the result: sorting the notes collected from any rearrangement of the
    names of the directory gives the list [get_all_notes] returns. *)
Theorem X1_scan_listing_order (nd : N → option Z) (w : world) (l : list pystr) :
  l ≡ₚ filter (λ n, glob_md n = true) (map_to_list (entries w)).*1 →
  (get_all_notes nd w).1 = Ok (merge_sort note_le (collect_notes nd l)).
Proof.
  intros Hl. rewrite get_all_notes_run. cbn [fst]. f_equal.
  unfold notes_of. symmetry. by apply sort_collect_Permutation.
Qed.

Lemma X1_scan_listing_order_witness :
  (get_all_notes no_unicode_digit
     (dir_with [(py "2024-03-05.md", Text []); (py "2024-03-01.md", Text []);
                (py "2024-03-09.md", Text [])])).1
  = Ok (merge_sort note_le (collect_notes no_unicode_digit
          [py "2024-03-09.md"; py "2024-03-01.md"; py "2024-03-05.md"])).
Proof.
  apply (X1_scan_listing_order no_unicode_digit
    (dir_with [(py "2024-03-05.md", Text []); (py "2024-03-01.md", Text []);
               (py "2024-03-09.md", Text [])])
    [py "2024-03-09.md"; py "2024-03-01.md"; py "2024-03-05.md"]).
  vm_compute. apply perm_skip, perm_swap.
Defined.

Lemma listed_same_names w1 w2 :
  dom (entries w1) = dom (entries w2) → listed w1 ≡ₚ listed w2.
Proof.
  intros Hdom. apply NoDup_Permutation; [apply NoDup_listed..|].
  intros n. rewrite !elem_of_listed, <- !elem_of_dom, Hdom. done.
Qed.

(** X2: the scan looks at names only.  Two directories with the same names
    give the same notes, whatever the files hold and whether they can be
    read. *)
Theorem X2_scan_names_only (nd : N → option Z) (w1 w2 : world) :
  dom (entries w1) = dom (entries w2) →
  (get_all_notes nd w1).1 = (get_all_notes nd w2).1.
Proof.
  intros Hdom. rewrite !get_all_notes_run. cbn [fst]. f_equal.
  apply sort_collect_Permutation. by apply listed_same_names.
Qed.

Lemma X2_scan_names_only_witness :
  (get_all_notes no_unicode_digit
     (dir_with [(py "2024-03-05.md", Text (py "- [ ] a")); (py "x.md", Text [])])).1
  = (get_all_notes no_unicode_digit
     (dir_with [(py "x.md", Unreadable); (py "2024-03-05.md", Unreadable)])).1.
Proof.
  apply (X2_scan_names_only no_unicode_digit
    (dir_with [(py "2024-03-05.md", Text (py "- [ ] a")); (py "x.md", Text [])])
    (dir_with [(py "x.md", Unreadable); (py "2024-03-05.md", Unreadable)])).
  vm_compute. reflexivity.
Defined.

Lemma re_md_unpadded nd m d :
  1 ≤ m ≤ 12 → 1 ≤ d ≤ 31 →
  re_md nd (digits_unpadded m ++ [HYPHEN] ++ digits_unpadded d) = Some (m, d, []).
Proof.
  intros Hm Hd.
  assert (forallb (λ m, forallb (λ d, bool_decide
    (re_md nd (digits_unpadded m ++ [HYPHEN] ++ digits_unpadded d)
     = Some (m, d, []))) (seqZ 1 31)) (seqZ 1 12) = true) as Hall
    by (vm_compute; reflexivity).
  rewrite forallb_forall in Hall.
  specialize (Hall m). rewrite forallb_forall in Hall.
  eapply bool_decide_eq_true, Hall; apply list_elem_of_In, elem_of_seqZ; lia.
Qed.

Lemma strptime_unpadded nd d :
  valid_date d → strptime_Ymd nd (unpadded_Ymd d) = Some d.
Proof.
  destruct d as [y m dd]. unfold valid_date; cbn [year month day].
  intros Hv. pose proof Hv as (Hy & Hm & Hd)%valid_dateb_spec.
  assert (_days_in_month y m ≤ 31).
  { unfold _days_in_month. destruct (_ && _); [lia|]. month_cases m; by vm_compute. }
  unfold strptime_Ymd, strptime_match, unpadded_Ymd, re_Y; cbn [year month day app].
  rewrite !re_digit_char by (Z.to_euclidean_division_equations; lia).
  cbn [mbind option_bind re_hyphen]. rewrite N.eqb_refl.
  cbn [mbind option_bind].
  change (digits_unpadded m ++ HYPHEN :: digits_unpadded dd)
    with (digits_unpadded m ++ [HYPHEN] ++ digits_unpadded dd).
  rewrite re_md_unpadded by lia.
  cbn [mbind option_bind].
  replace (_ + _ + _ + _) with y by (Z.to_euclidean_division_equations; lia).
  by rewrite Hv.
Qed.

(** X3: the scan takes a file whose name writes the month or the day
    without its leading zero, as [2024-3-5.md], for the note of that date:
    for every date, the file named by its unpadded text is in the result
    under that date whenever it is in the directory. *)
Theorem X3_scan_unpadded_names (nd : N → option Z) (w : world) (d : date) :
  valid_date d →
  is_Some (entries w !! (unpadded_Ymd d ++ MD_SUFFIX)) →
  ∃ notes, (get_all_notes nd w).1 = Ok notes
    ∧ (d, unpadded_Ymd d ++ MD_SUFFIX) ∈ notes.
Proof.
  intros Hd Hex. exists (notes_of nd w). split; [done|].
  apply elem_of_notes_of. split_and!; [done| |].
  - apply glob_md_spec. eauto.
  - rewrite stem_md by done. by apply strptime_unpadded.
Qed.

Lemma X3_scan_unpadded_names_witness :
  ∃ notes,
    (get_all_notes no_unicode_digit
       (dir_with [(py "2024-12-1.md", Text [])])).1 = Ok notes
    ∧ (mkdate 2024 12 1, py "2024-12-1.md") ∈ notes.
Proof.
  apply (X3_scan_unpadded_names no_unicode_digit
    (dir_with [(py "2024-12-1.md", Text [])]) (mkdate 2024 12 1) eq_refl).
  vm_compute. eauto.
Defined.

(** ** [extract_undone_todos] *)

Lemma todos_of_well_formed text :
  Forall (λ x, x ≠ [] ∧ single_line x) (todos_of text).
Proof.
  unfold todos_of. rewrite scan_lines_omap. apply Forall_forall.
  intros x (line & Hline & Hm)%list_elem_of_omap.
  pose proof (splitlines_single_line _ _ Hline) as Hs.
  apply (TODO_PATTERN_match_line _ _ Hs) in Hm as [-> Hne].
  split; [done|]. unfold single_line in Hs. by apply Forall_app in Hs as [_ ?].
Qed.

(** X4: every todo [extract_undone_todos] returns is a non-empty text of a
    single line: it holds no line feed, carriage return or other line
    boundary of [str.splitlines]. *)
Theorem X4_extracted_todos_one_line (w : world) (n : pystr) (ts : list pystr) :
  (extract_undone_todos n w).1 = Ok ts →
  Forall (λ x, x ≠ [] ∧ Forall (λ c, is_linebreak c = false) x) ts.
Proof.
  destruct (note_text w n) as [text|] eqn:E.
  - rewrite (extract_readable _ _ _ E). intros [= <-]. apply todos_of_well_formed.
  - by rewrite (extract_unreadable _ _ E).
Qed.

Lemma X4_extracted_todos_one_line_witness :
  Forall (λ x, x ≠ [] ∧ Forall (λ c, is_linebreak c = false) x)
    [py "buy milk"; py "call bob"].
Proof.
  apply (X4_extracted_todos_one_line
    (dir_with [(py "2024-03-05.md",
                Text (unlines [py "- [ ] buy milk"; py "- [x] done thing";
                               py "- [ ] call bob"]))])
    (py "2024-03-05.md")).
  reflexivity.
Defined.

(** ** [create_daily_note] *)

Lemma mapM_todos_well_formed w notes tss :
  mapM (note_todos w) notes = Some tss →
  Forall (λ x, x ≠ [] ∧ single_line x) (concat tss).
Proof.
  rewrite mapM_Some. induction 1 as [|n ts notes tss Hn _ IH]; [constructor|].
  cbn [concat]. apply Forall_app. split; [|done].
  unfold note_todos in Hn. destruct (note_text w n.2) as [text|]; [|done].
  injection Hn as <-. apply todos_of_well_formed.
Qed.

(** X5: what a generated note carries over is read back whole.  After a
    call that generates the note, [extract_undone_todos] on the new file
    returns the aggregated todos, in their order: the todos of the Tasks
    section are the unfinished todos of the new note. *)
Theorem X5_generated_note_reads_back (nd : N → option Z) (w : world) (t : date)
    (tss : list (list pystr)) :
  valid_date t → 7 < toordinal t →
  entries w !! note_name t = None →
  mapM (note_todos w) (window_notes nd w t) = Some tss →
  (notes_dir w = None → mkdir_ok w = true) → write_ok w = true →
  ∃ todos w',
    (create_daily_note nd (Some t) w) = (Ok PyNone, w')
    ∧ (aggregate_todos (window_notes nd w t) w).1 = Ok todos
    ∧ (extract_undone_todos (note_name t) w').1 = Ok todos.
Proof.
  intros Ht Hord Hnone Htss Hmk Hwr.
  exists (spec_first_occurrences (concat tss)). eexists. split_and!.
  - by apply create_success.
  - by rewrite (aggregate_todos_readable _ _ _ Htss).
  - rewrite (extract_readable _ _ (render_body t (spec_first_occurrences (concat tss)))).
    + cbn [fst]. f_equal. apply todos_of_render.
      pose proof (mapM_todos_well_formed _ _ _ Htss) as Hall.
      apply Forall_forall. intros x Hx.
      apply (proj1 (elem_of_first_occurrences _ _)) in Hx.
      revert x Hx. by apply Forall_forall.
    + unfold note_text. by rewrite entries_Some, lookup_insert_eq.
Qed.

Lemma X5_generated_note_reads_back_witness :
  ∃ todos w',
    create_daily_note no_unicode_digit (Some (mkdate 2024 3 10))
      (dir_with [(py "2024-03-05.md",
                  Text (unlines [py "- [ ] buy milk"; py "- [x] done thing";
                                 py "- [ ] call bob"]))])
    = (Ok PyNone, w')
    ∧ (aggregate_todos
         (window_notes no_unicode_digit
            (dir_with [(py "2024-03-05.md",
                  Text (unlines [py "- [ ] buy milk"; py "- [x] done thing";
                                 py "- [ ] call bob"]))]) (mkdate 2024 3 10))
         (dir_with [(py "2024-03-05.md",
                  Text (unlines [py "- [ ] buy milk"; py "- [x] done thing";
                                 py "- [ ] call bob"]))])).1 = Ok todos
    ∧ (extract_undone_todos (note_name (mkdate 2024 3 10)) w').1 = Ok todos.
Proof.
  apply (X5_generated_note_reads_back no_unicode_digit
    (dir_with [(py "2024-03-05.md",
                Text (unlines [py "- [ ] buy milk"; py "- [x] done thing";
                               py "- [ ] call bob"]))])
    (mkdate 2024 3 10) [[py "buy milk"; py "call bob"]]
    eq_refl eq_refl eq_refl eq_refl); [discriminate|reflexivity].
Defined.

(** X6: whatever its outcome, a call leaves every file of the directory but
    the note of its date as it was, and that note too when it was there. *)
Theorem X6_other_files_untouched (nd : N → option Z) (w w' : world) (t : date)
    (r : result pyvalue) :
  valid_date t →
  create_daily_note nd (Some t) w = (r, w') →
  (∀ n, n ≠ note_name t → entries w' !! n = entries w !! n)
  ∧ (is_Some (entries w !! note_name t) → entries w' = entries w).
Proof.
  intros Ht Hrun.
  destruct (create_outcome nd w t r w' Ht Hrun)
    as [(Hex & _ & ->)|[(Hnone & _ & Heq)
        |[(Hnone & _ & body & Heq & _)|(Hnone & _ & _ & remains & _ & Heq)]]].
  - done.
  - rewrite Heq. split; [done|]. rewrite Hnone. by intros [??].
  - rewrite Heq. split.
    + intros n Hn. by rewrite lookup_insert_ne.
    + rewrite Hnone. by intros [??].
  - rewrite Heq. split.
    + intros n Hn. by rewrite lookup_insert_ne.
    + rewrite Hnone. by intros [??].
Qed.

Lemma X6_other_files_untouched_witness :
  entries (create_daily_note no_unicode_digit (Some (mkdate 2024 3 10))
             (dir_with [(py "2024-03-05.md", Text (unlines [py "- [ ] a"]));
                        (py "todo.txt", Unreadable)])).2 !! py "todo.txt"
  = entries (dir_with [(py "2024-03-05.md", Text (unlines [py "- [ ] a"]));
                       (py "todo.txt", Unreadable)]) !! py "todo.txt".
Proof.
  apply (proj1 (X6_other_files_untouched no_unicode_digit
    (dir_with [(py "2024-03-05.md", Text (unlines [py "- [ ] a"]));
               (py "todo.txt", Unreadable)]) _ (mkdate 2024 3 10) _ eq_refl
    (surjective_pairing _))).
  vm_compute. discriminate.
Defined.

(** X7: when the system refuses the write, or refuses to create the missing
    directory, a call that has found its target absent and read its window
    raises [WriteError] and leaves every other file as it was.  The
    directory is created before the write, and [open] creates the file
    before the text is written: a refused write leaves the directory it had
    to create in place, and the target absent only when [open] itself was
    refused; else the target is there, as the failed write left it. *)
Theorem X7_write_error (nd : N → option Z) (w : world) (t : date)
    (tss : list (list pystr)) :
  valid_date t → 7 < toordinal t →
  entries w !! note_name t = None →
  mapM (note_todos w) (window_notes nd w t) = Some tss →
  write_ok w = false ∨ (notes_dir w = None ∧ mkdir_ok w = false) →
  ∃ w', create_daily_note nd (Some t) w = (Raise WriteError, w')
    ∧ (∀ n, n ≠ note_name t → entries w' !! n = entries w !! n)
    ∧ (notes_dir w = None → mkdir_ok w = false →
       notes_dir w' = None)
    ∧ (notes_dir w = None → mkdir_ok w = true → is_Some (notes_dir w'))
    ∧ (is_Some (notes_dir w) ∨ mkdir_ok w = true →
       entries w' !! note_name t = failed_write w).
Proof.
  intros Ht Hord Hnone Htss Hfail.
  rewrite create_fresh by done.
  rewrite (aggregate_todos_readable _ tss) by done.
  destruct w as [dir mk wr fw td tr].
  unfold mkdir_p, write_text, logs, log, set_dir, entries in *.
  cbn [notes_dir mkdir_ok write_ok failed_write today trace] in *.
  destruct dir as [m|], mk, wr, fw as [remains|];
    cbn [notes_dir mkdir_ok write_ok failed_write today trace default];
    try (destruct Hfail as [?|[? ?]]; discriminate);
    eexists; (split; [reflexivity|]);
    cbn [notes_dir mkdir_ok write_ok failed_write today trace default];
    unfold id; split_and!; try done; try (by intros [[]|]);
    try (intros n Hn; by rewrite lookup_insert_ne);
    try (intros _; by rewrite lookup_insert_eq); eauto.
Qed.

Lemma X7_write_error_witness :
  ∃ w', create_daily_note no_unicode_digit (Some (mkdate 2024 3 10))
          (mkworld None true false (Some (Text [])) (mkdate 2024 3 10) [])
        = (Raise WriteError, w')
    ∧ is_Some (notes_dir w')
    ∧ entries w' !! note_name (mkdate 2024 3 10) = Some (Text []).
Proof.
  destruct (X7_write_error no_unicode_digit
    (mkworld None true false (Some (Text [])) (mkdate 2024 3 10) [])
    (mkdate 2024 3 10) [] eq_refl eq_refl eq_refl eq_refl (or_introl eq_refl))
    as (w' & Hrun & _ & _ & Hdir & Hfile).
  exists w'. split_and!;
    [exact Hrun|exact (Hdir eq_refl eq_refl)|exact (Hfile (or_intror eq_refl))].
Defined.

Lemma toordinal_first_week t :
  valid_date t → toordinal t ≤ 7 ↔ year t = 1 ∧ month t = 1 ∧ day t ≤ 7.
Proof.
  intros Ht. pose proof Ht as (Hy & Hm & Hd)%valid_dateb_spec.
  assert (valid_date (mkdate 1 1 7)) as H7 by done.
  change 7 with (toordinal (mkdate 1 1 7)) at 1.
  rewrite <- date_leb_iff by done. unfold date_leb.
  rewrite orb_true_iff, date_ltb_spec, bool_decide_eq_true. cbn [year month day].
  destruct t as [y m d]; cbn [year month day] in *. split.
  - intros [?|[= -> -> ->]]; lia.
  - intros (-> & -> & ?). destruct (decide (d = 7)) as [->|]; [by right|left; lia].
Qed.

(** X8: the targets whose window cannot start are the first seven days of
    the calendar, 0001-01-01 to 0001-01-07.  For them a call that finds its
    target absent raises [OverflowError] after the check of the name alone:
    it lists nothing, reads nothing and writes nothing. *)
Theorem X8_overflow_first_week (nd : N → option Z) (w : world) (t : date) :
  valid_date t →
  (date_sub_days t 7 = None ↔ year t = 1 ∧ month t = 1 ∧ day t ≤ 7)
  ∧ (year t = 1 ∧ month t = 1 ∧ day t ≤ 7 →
     entries w !! note_name t = None →
     create_daily_note nd (Some t) w
     = (Raise OverflowError, log (EvExists (note_name t)) w)).
Proof.
  intros Ht. pose proof (toordinal_first_week t Ht) as Hweek. split.
  - rewrite <- Hweek. split.
    + intros Hsub. destruct (decide (toordinal t ≤ 7)); [done|].
      rewrite date_sub_days_Some in Hsub by (done || lia). done.
    + apply date_sub_days_None.
  - intros Hfirst%Hweek Hnone. apply create_overflow; [done|].
    by apply date_sub_days_None.
Qed.

Lemma X8_overflow_first_week_witness :
  create_daily_note no_unicode_digit (Some (mkdate 1 1 7))
    (dir_with [(py "0001-01-02.md", Text (unlines [py "- [ ] x"]))])
  = (Raise OverflowError,
     log (EvExists (note_name (mkdate 1 1 7)))
       (dir_with [(py "0001-01-02.md", Text (unlines [py "- [ ] x"]))])).
Proof.
  apply (proj2 (X8_overflow_first_week no_unicode_digit
    (dir_with [(py "0001-01-02.md", Text (unlines [py "- [ ] x"]))])
    (mkdate 1 1 7) eq_refl)); [|reflexivity].
  split_and!; [reflexivity..|vm_compute; discriminate].
Defined.

Lemma notes_of_empty nd w : entries w = ∅ → notes_of nd w = [].
Proof.
  intros Hempty. unfold notes_of, listed. by rewrite Hempty, map_to_list_empty.
Qed.

(** X9: the first run.  In a directory with no file, or that does not
    exist and may be created, the call reads nothing, creates the directory
    when it is missing and writes the note with the placeholder line as its
    only task. *)
Theorem X9_first_run (nd : N → option Z) (w : world) (t : date) :
  valid_date t → 7 < toordinal t →
  entries w = ∅ →
  (notes_dir w = None → mkdir_ok w = true) → write_ok w = true →
  create_daily_note nd (Some t) w
  = (Ok PyNone,
     mkworld
       (Some {[ note_name t :=
                Text (unlines [py "# " ++ strftime_Ymd t; []; py "## Tasks";
                               py "- [ ] "; []; py "## Notes"; py "- "]) ]})
       (mkdir_ok w) (write_ok w) (failed_write w) (today w)
       (trace w ++ [EvExists (note_name t); EvGlob; EvMkdir;
                    EvWrite (note_name t)
                      (unlines [py "# " ++ strftime_Ymd t; []; py "## Tasks";
                                py "- [ ] "; []; py "## Notes"; py "- "])])).
Proof.
  intros Ht Hord Hempty Hmk Hwr.
  rewrite (create_success nd w t []); try done.
  - rewrite Hempty. cbn [concat]. 
    change (spec_first_occurrences []) with (@nil pystr).
    rewrite render_body_unlines. unfold window_notes.
    by rewrite notes_of_empty.
  - by rewrite Hempty.
  - unfold window_notes. by rewrite notes_of_empty.
Qed.

Lemma X9_first_run_witness :
  ∃ w', create_daily_note no_unicode_digit (Some (mkdate 2025 1 1))
          (mkworld None true true None (mkdate 2025 1 1) []) = (Ok PyNone, w')
    ∧ notes_dir w'
      = Some {[ py "2025-01-01.md" :=
                Text (unlines [py "# 2025-01-01"; []; py "## Tasks";
                               py "- [ ] "; []; py "## Notes"; py "- "]) ]}.
Proof.
  eexists. split.
  - apply (X9_first_run no_unicode_digit
      (mkworld None true true None (mkdate 2025 1 1) []) (mkdate 2025 1 1)
      eq_refl eq_refl eq_refl (λ _, eq_refl) eq_refl).
  - reflexivity.
Defined.

(** ** [aggregate_todos] *)

Lemma aggregate_loop_stops pre d n post tss st w :
  mapM (note_todos w) pre = Some tss → note_text w n = None →
  aggregate_loop (pre ++ (d, n) :: post) st w
  = (Raise (ReadError n), logs (EvRead <$> (pre.*2 ++ [n])) w).
Proof.
  revert tss st w. induction pre as [|[d' n'] pre IH]; intros tss st w Hm Hn.
  - cbn [app aggregate_loop]. unfold bind at 1.
    by rewrite (extract_unreadable _ _ Hn).
  - rewrite mapM_Some in Hm.
    apply Forall2_cons_inv_l in Hm as (ts & tss' & Ht & Hm & ->).
    unfold note_todos in Ht; cbn in Ht.
    destruct (note_text w n') as [text|] eqn:E; [|done].
    cbn [app aggregate_loop]. unfold bind at 1.
    rewrite (extract_readable _ _ _ E).
    rewrite (IH tss'); [|apply mapM_Some; eapply Forall2_impl; [exact Hm|done]|done].
    cbn [fmap list_fmap snd app]. by rewrite logs_cons.
Qed.

(** X10: the aggregation reads the notes in the order of the sequence and
    stops at the first that cannot be read: it raises the error of that
    note, has read the notes before it and that note, once each, and has
    opened none of the notes after it. *)
Theorem X10_aggregate_stops_at_first_failure (w : world)
    (pre post : list (date * pystr)) (d : date) (n : pystr)
    (tss : list (list pystr)) :
  mapM (note_todos w) pre = Some tss → note_text w n = None →
  ∃ w', aggregate_todos (pre ++ (d, n) :: post) w = (Raise (ReadError n), w')
    ∧ trace w' = trace w ++ (EvRead <$> pre.*2) ++ [EvRead n]
    ∧ same_fs w w'.
Proof.
  intros Hpre Hn. unfold aggregate_todos.
  rewrite (aggregate_loop_stops _ _ _ _ tss) by done.
  eexists. split_and!; [done| |done].
  cbn [logs trace]. by rewrite fmap_app.
Qed.

Lemma X10_aggregate_stops_at_first_failure_witness :
  ∃ w',
    aggregate_todos
      ([(mkdate 2024 3 5, py "2024-03-05.md")]
       ++ (mkdate 2024 3 6, py "2024-03-06.md")
       :: [(mkdate 2024 3 7, py "2024-03-07.md")])
      (dir_with [(py "2024-03-05.md", Text (unlines [py "- [ ] a"]));
                 (py "2024-03-06.md", Unreadable);
                 (py "2024-03-07.md", Text (unlines [py "- [ ] b"]))])
    = (Raise (ReadError (py "2024-03-06.md")), w')
    ∧ trace w' = [] ++ (EvRead <$> [(mkdate 2024 3 5, py "2024-03-05.md")].*2)
                 ++ [EvRead (py "2024-03-06.md")]
    ∧ same_fs
        (dir_with [(py "2024-03-05.md", Text (unlines [py "- [ ] a"]));
                   (py "2024-03-06.md", Unreadable);
                   (py "2024-03-07.md", Text (unlines [py "- [ ] b"]))]) w'.
Proof.
  exact (X10_aggregate_stops_at_first_failure
    (dir_with [(py "2024-03-05.md", Text (unlines [py "- [ ] a"]));
               (py "2024-03-06.md", Unreadable);
               (py "2024-03-07.md", Text (unlines [py "- [ ] b"]))])
    [(mkdate 2024 3 5, py "2024-03-05.md")] [(mkdate 2024 3 7, py "2024-03-07.md")]
    (mkdate 2024 3 6) (py "2024-03-06.md") [[py "a"]] eq_refl eq_refl).
Defined.

Lemma unseen_app seen l1 l2 :
  unseen seen (l1 ++ l2) = unseen seen l1 ++ unseen (list_to_set l1 ∪ seen) l2.
Proof.
  revert seen. induction l1 as [|x l1 IH]; intros seen; cbn [app unseen].
  - f_equal. set_solver.
  - destruct (decide (x ∈ seen)).
    + rewrite IH. do 2 f_equal. set_solver.
    + cbn [app]. rewrite IH. do 3 f_equal. set_solver.
Qed.

Lemma unseen_filter (S T : gset pystr) l :
  unseen (S ∪ T) l = filter (λ x, x ∉ S) (unseen T l).
Proof.
  revert T. induction l as [|x l IH]; intros T; cbn [unseen]; [done|].
  destruct (decide (x ∈ T)) as [HT|HT].
  - rewrite decide_True by set_solver. apply IH.
  - destruct (decide (x ∈ S)) as [HS|HS].
    + rewrite decide_True by set_solver.
      rewrite filter_cons, decide_False by (by intros []).
      rewrite <- IH. f_equal. set_solver.
    + rewrite decide_False by set_solver.
      rewrite filter_cons, decide_True by done.
      rewrite <- IH. do 2 f_equal. set_solver.
Qed.

Lemma mapM_None_Exists w notes :
  mapM (note_todos w) notes = None →
  Exists (λ n, note_todos w n = None) notes.
Proof.
  induction notes as [|n notes IH]; [done|]. cbn.
  destruct (note_todos w n) eqn:E; [|by left]. cbn.
  destruct (mapM (note_todos w) notes); [done|]. intros _. right. by apply IH.
Qed.

Lemma aggregate_todos_Ok notes w r :
  (aggregate_todos notes w).1 = Ok r →
  ∃ tss, mapM (note_todos w) notes = Some tss
    ∧ r = spec_first_occurrences (concat tss).
Proof.
  intros Hrun. destruct (mapM (note_todos w) notes) as [tss|] eqn:Hm.
  - rewrite (aggregate_todos_readable _ _ _ Hm) in Hrun. injection Hrun as <-. eauto.
  - exfalso. apply mapM_None_Exists in Hm.
    unfold aggregate_todos in Hrun.
    destruct (aggregate_loop_unreadable notes (∅, []) w Hm)
      as (d & n & w' & Hr & _). by rewrite Hr in Hrun.
Qed.

(** X11: aggregation composes over the concatenation of sequences of notes:
    the todos of [notes1 ++ notes2] are those of [notes1], followed by those
    of [notes2] that are not among them. *)
Theorem X11_aggregate_app (w : world) (notes1 notes2 : list (date * pystr))
    (r1 r2 : list pystr) :
  (aggregate_todos notes1 w).1 = Ok r1 →
  (aggregate_todos notes2 w).1 = Ok r2 →
  (aggregate_todos (notes1 ++ notes2) w).1
  = Ok (r1 ++ filter (λ x, x ∉ r1) r2).
Proof.
  intros (tss1 & Hm1 & ->)%aggregate_todos_Ok (tss2 & Hm2 & ->)%aggregate_todos_Ok.
  assert (mapM (note_todos w) (notes1 ++ notes2) = Some (tss1 ++ tss2)) as Hm.
  { apply mapM_Some, Forall2_app; by apply mapM_Some. }
  rewrite (aggregate_todos_readable _ _ _ Hm). cbn [fst]. f_equal.
  rewrite concat_app, <- !unseen_first_occurrences, unseen_app.
  f_equal. rewrite unseen_filter. apply filter_ext_elem.
  intros x _. rewrite elem_of_list_to_set, elem_of_unseen. set_solver.
Qed.

Lemma X11_aggregate_app_witness :
  (aggregate_todos
     ([(mkdate 2024 3 5, py "2024-03-05.md")]
      ++ [(mkdate 2024 3 6, py "2024-03-06.md")])
     (dir_with [(py "2024-03-05.md", Text (unlines [py "- [ ] a"; py "- [ ] b"]));
                (py "2024-03-06.md", Text (unlines [py "- [ ] c"; py "- [ ] a"]))])).1
  = Ok ([py "a"; py "b"] ++ filter (λ x, x ∉ [py "a"; py "b"]) [py "c"; py "a"]).
Proof.
  exact (X11_aggregate_app
    (dir_with [(py "2024-03-05.md", Text (unlines [py "- [ ] a"; py "- [ ] b"]));
               (py "2024-03-06.md", Text (unlines [py "- [ ] c"; py "- [ ] a"]))])
    [(mkdate 2024 3 5, py "2024-03-05.md")] [(mkdate 2024 3 6, py "2024-03-06.md")]
    [py "a"; py "b"] [py "c"; py "a"] eq_refl eq_refl).
Defined.

(** ** The monitoring loop of [main] *)

Lemma last_run_date_step (last : option date) (d : date) :
  (if decide (last = Some d) then last else Some d) = Some d.
Proof. by destruct (decide (last = Some d)) as [->|]. Qed.

Lemma monitor_step_early nd now last w :
  now.2 < START_HOUR → monitor_step nd now last w = (Ok (Some now.1), w).
Proof.
  intros Hh. unfold monitor_step. rewrite last_run_date_step.
  by destruct (Z.leb_spec START_HOUR now.2); [lia|].
Qed.

Lemma monitor_step_present nd d h last w :
  START_HOUR ≤ h → is_Some (entries w !! note_name d) →
  monitor_step nd (d, h) last w = (Ok (Some d), log (EvExists (note_name d)) w).
Proof.
  intros Hh Hex. unfold monitor_step. cbn [fst snd]. rewrite last_run_date_step.
  destruct (Z.leb_spec START_HOUR h); [|lia].
  unfold bind at 1, path_exists. fold (note_name d).
  by rewrite bool_decide_eq_true_2.
Qed.

Lemma monitor_step_absent nd d h last w :
  START_HOUR ≤ h → entries w !! note_name d = None →
  monitor_step nd (d, h) last w
  = match create_daily_note nd (Some d) (log (EvExists (note_name d)) w) with
    | (Ok _, w') => (Ok (Some d), w')
    | (Raise e, w') => (Raise e, w')
    end.
Proof.
  intros Hh Hex. unfold monitor_step. cbn [fst snd]. rewrite last_run_date_step.
  destruct (Z.leb_spec START_HOUR h); [|lia].
  unfold bind at 1, path_exists. fold (note_name d).
  rewrite bool_decide_eq_false_2 by (by apply is_Some_None_false).
  unfold bind at 1.
  by destruct (create_daily_note nd (Some d) _) as [[v|e] w'].
Qed.

(** X12: before the hour of the first run (06:00) the monitor does nothing:
    turns of the loop whose readings of the clock are all before that hour
    leave the world as it is, with no operation on the directory at all. *)
Theorem X12_monitor_idle_before_start_hour (nd : N → option Z)
    (clock : list (date * Z)) (last : option date) (w : world) :
  Forall (λ now, now.2 < START_HOUR) clock →
  ∃ last', monitor_loop nd clock last w = (Ok last', w).
Proof.
  intros Hall. revert last. induction Hall as [|now clock Hh _ IH]; intros last.
  - by eexists.
  - cbn [monitor_loop]. unfold bind at 1. rewrite monitor_step_early by done.
    apply IH.
Qed.

Lemma X12_monitor_idle_before_start_hour_witness :
  ∃ last',
    monitor_loop no_unicode_digit
      [(mkdate 2024 3 10, 0); (mkdate 2024 3 10, 5)] None (dir_with [])
    = (Ok last', dir_with []).
Proof.
  apply (X12_monitor_idle_before_start_hour no_unicode_digit
    [(mkdate 2024 3 10, 0); (mkdate 2024 3 10, 5)] None (dir_with [])).
  repeat constructor.
Defined.

Lemma monitor_loop_present nd d clock last w :
  Forall (λ now, now.1 = d) clock →
  is_Some (entries w !! note_name d) →
  ∃ last', monitor_loop nd clock last w
    = (Ok last',
       logs (replicate (length (filter (λ now, START_HOUR ≤ now.2) clock))
               (EvExists (note_name d))) w).
Proof.
  intros Hall. revert last w.
  induction Hall as [|[d' h] clock Hd _ IH]; intros last w Hex.
  - eexists. cbn. by rewrite logs_nil.
  - cbn [fst] in Hd. subst d'. cbn [monitor_loop]. unfold bind at 1.
    rewrite filter_cons. cbn [snd].
    destruct (decide (START_HOUR ≤ h)) as [Hh|Hh].
    + rewrite monitor_step_present by done.
      destruct (IH (Some d) (log (EvExists (note_name d)) w) Hex) as [last' ->].
      exists last'. cbn [length replicate]. by rewrite logs_cons.
    + rewrite (monitor_step_early nd (d, h)) by (cbn; lia).
      apply IH, Hex.
Qed.

(** X13: while the note of the day is in the directory, the monitor only
    checks its name: over readings of the clock of one day, the loop returns,
    leaves the directory as it is, and its trace grows by one check of the
    name for each reading at or after 06:00, and by nothing else. *)
Theorem X13_monitor_note_present (nd : N → option Z) (d : date)
    (clock : list (date * Z)) (last : option date) (w : world) :
  Forall (λ now, now.1 = d) clock →
  is_Some (entries w !! note_name d) →
  ∃ last' w',
    monitor_loop nd clock last w = (Ok last', w')
    ∧ same_fs w w'
    ∧ trace w'
      = trace w ++ replicate (length (filter (λ now, START_HOUR ≤ now.2) clock))
                     (EvExists (note_name d)).
Proof.
  intros Hall Hex.
  destruct (monitor_loop_present nd d clock last w Hall Hex) as [last' ->].
  by eexists _, _.
Qed.

Lemma X13_monitor_note_present_witness :
  ∃ last' w',
    monitor_loop no_unicode_digit
      [(mkdate 2024 3 10, 5); (mkdate 2024 3 10, 6); (mkdate 2024 3 10, 23)] None
      (dir_with [(py "2024-03-10.md", Text [])])
    = (Ok last', w')
    ∧ same_fs (dir_with [(py "2024-03-10.md", Text [])]) w'
    ∧ trace w' = [EvExists (py "2024-03-10.md"); EvExists (py "2024-03-10.md")].
Proof.
  apply (X13_monitor_note_present no_unicode_digit (mkdate 2024 3 10)
    [(mkdate 2024 3 10, 5); (mkdate 2024 3 10, 6); (mkdate 2024 3 10, 23)] None
    (dir_with [(py "2024-03-10.md", Text [])])).
  - repeat constructor.
  - vm_compute. eauto.
Defined.

(** X14: one note a day.  Once a turn at or after 06:00 has returned, the
    note of the day is in the directory, and the later turns of that day
    leave the directory as that turn left it. *)
Theorem X14_monitor_once_a_day (nd : N → option Z) (d : date) (h : Z)
    (rest : list (date * Z)) (last r : option date) (w w1 : world) :
  valid_date d → START_HOUR ≤ h →
  monitor_step nd (d, h) last w = (Ok r, w1) →
  Forall (λ now, now.1 = d) rest →
  ∃ last' w2,
    monitor_loop nd ((d, h) :: rest) last w = (Ok last', w2)
    ∧ is_Some (entries w1 !! note_name d)
    ∧ same_fs w1 w2.
Proof.
  intros Hd Hh Hstep Hrest.
  assert (is_Some (entries w1 !! note_name d)) as Hex.
  { destruct (entries w !! note_name d) as [x|] eqn:E.
    - rewrite monitor_step_present in Hstep by (rewrite ?E; eauto).
      injection Hstep as <- <-. rewrite entries_log, E. eauto.
    - rewrite monitor_step_absent in Hstep by done.
      destruct (create_daily_note nd (Some d) (log (EvExists (note_name d)) w))
        as [[v|e] w'] eqn:Hrun; [|done].
      injection Hstep as <- <-.
      destruct (create_outcome nd _ d _ _ Hd Hrun)
        as [(Hs & _ & _)|[(_ & [e ?] & _)
            |[(_ & _ & body & -> & _)|(_ & ? & _)]]]; [|done| |done].
      + rewrite entries_log, E in Hs. by destruct Hs.
      + rewrite lookup_insert_eq. eauto. }
  cbn [monitor_loop]. unfold bind at 1. rewrite Hstep.
  destruct (monitor_loop_present nd d rest r w1 Hrest Hex) as [last' ->].
  by eexists _, _.
Qed.

Lemma X14_monitor_once_a_day_witness :
  ∃ last' w2,
    monitor_loop no_unicode_digit
      [(mkdate 2024 3 10, 6); (mkdate 2024 3 10, 7)] None (dir_with [])
    = (Ok last', w2)
    ∧ is_Some (entries (monitor_step no_unicode_digit (mkdate 2024 3 10, 6)
                          None (dir_with [])).2 !! note_name (mkdate 2024 3 10))
    ∧ same_fs (monitor_step no_unicode_digit (mkdate 2024 3 10, 6)
                 None (dir_with [])).2 w2.
Proof.
  apply (X14_monitor_once_a_day no_unicode_digit (mkdate 2024 3 10) 6
    [(mkdate 2024 3 10, 7)] None (Some (mkdate 2024 3 10)) (dir_with []) _
    eq_refl ltac:(discriminate)).
  - vm_compute. reflexivity.
  - repeat constructor.
Defined.

Lemma monitor_loop_app nd pre post last w :
  monitor_loop nd (pre ++ post) last w
  = match monitor_loop nd pre last w with
    | (Ok last1, w1) => monitor_loop nd post last1 w1
    | (Raise e, w1) => (Raise e, w1)
    end.
Proof.
  revert last w. induction pre as [|now pre IH]; intros last w; [done|].
  cbn [app monitor_loop]. unfold bind.
  destruct (monitor_step nd now last w) as [[l1|e] w1]; [apply IH|done].
Qed.

Lemma monitor_loop_idle nd clock last w :
  Forall (λ now, now.2 < START_HOUR) clock →
  ∃ last', monitor_loop nd clock last w = (Ok last', w).
Proof.
  intros Hall. revert last. induction Hall as [|now clock Hh _ IH]; intros last.
  - by eexists.
  - cbn [monitor_loop]. unfold bind at 1. rewrite monitor_step_early by done.
    apply IH.
Qed.

(** X15: the loop has no exception handler, and a note of the window that
    cannot be read ends the monitor.  After idle turns before 06:00, the
    first turn at or after 06:00 of a day whose note is absent raises the
    read error; the loop raises it, has written nothing, and runs no turn
    for the readings that follow. *)
Theorem X15_monitor_stops_on_read_error (nd : N → option Z)
    (pre post : list (date * Z)) (d : date) (h : Z) (last : option date)
    (w : world) :
  valid_date d → 7 < toordinal d → START_HOUR ≤ h →
  Forall (λ now, now.2 < START_HOUR) pre →
  entries w !! note_name d = None →
  Exists (λ n, note_text w n.2 = None) (window_notes nd w d) →
  ∃ n w', monitor_loop nd (pre ++ (d, h) :: post) last w
          = (Raise (ReadError n), w')
    ∧ note_text w n = None ∧ same_fs w w'.
Proof.
  intros Hd Hord Hh Hpre Hnone Hex.
  destruct (monitor_loop_idle nd pre last w Hpre) as [last1 Hidle].
  rewrite monitor_loop_app, Hidle. cbn [monitor_loop]. unfold bind at 1.
  rewrite monitor_step_absent by done.
  destruct (create_unreadable nd (log (EvExists (note_name d)) w) d Hd Hnone Hord)
    as (d' & n & w' & -> & _ & Htext & Hfs).
  { eapply Exists_impl; [exact Hex|]. intros x. by rewrite note_todos_None. }
  by exists n, w'.
Qed.

Lemma X15_monitor_stops_on_read_error_witness :
  ∃ n w',
    monitor_loop no_unicode_digit
      ([(mkdate 2024 3 10, 5)] ++ (mkdate 2024 3 10, 6) :: [(mkdate 2024 3 11, 6)])
      None (dir_with [(py "2024-03-09.md", Unreadable)])
    = (Raise (ReadError n), w')
    ∧ note_text (dir_with [(py "2024-03-09.md", Unreadable)]) n = None
    ∧ same_fs (dir_with [(py "2024-03-09.md", Unreadable)]) w'.
Proof.
  apply (X15_monitor_stops_on_read_error no_unicode_digit
    [(mkdate 2024 3 10, 5)] [(mkdate 2024 3 11, 6)] (mkdate 2024 3 10) 6 None
    (dir_with [(py "2024-03-09.md", Unreadable)]) eq_refl eq_refl
    ltac:(discriminate)); [repeat constructor|reflexivity|].
  apply Exists_exists. exists (mkdate 2024 3 9, py "2024-03-09.md").
  split; [vm_compute; apply list_elem_of_here|reflexivity].
Defined.

(** ** The manual modes of [main] *)

(** X16: with [--date] and a text that [strptime] rejects, [main] returns
    without any operation on the directory; the readings of the clock are of
    no use to it. *)
Theorem X16_main_rejected_date (nd : N → option Z) (df : pystr → bool)
    (a : args) (s : pystr) (clock : list (date * Z)) (w : world) :
  create_now a = false → date_arg a = Some s → s ≠ [] →
  strptime_Ymd nd s = None →
  main nd df a clock w = (Ok PyNone, w).
Proof.
  intros Hnow Hdate Hs Hparse. unfold main. rewrite Hnow, Hdate.
  destruct s as [|c s]; [done|]. by rewrite Hparse.
Qed.

Lemma X16_main_rejected_date_witness :
  main no_unicode_digit (λ _, false) (mkargs false (Some (py "10/03/2024")))
    [] (dir_with [])
  = (Ok PyNone, dir_with []).
Proof.
  apply (X16_main_rejected_date no_unicode_digit (λ _, false)
    (mkargs false (Some (py "10/03/2024"))) (py "10/03/2024") [] (dir_with [])
    eq_refl eq_refl); [discriminate|reflexivity].
Defined.

Lemma main_date nd df a s t clock w :
  create_now a = false → date_arg a = Some s → strptime_Ymd nd s = Some t →
  main nd df a clock w
  = match create_daily_note nd (Some t) w with
    | (Ok _, w') => (Ok PyNone, w')
    | (Raise e, w') =>
        if is_ValueError df e then (Ok PyNone, w') else (Raise e, w')
    end.
Proof.
  intros Hnow Hdate Hparse. unfold main. rewrite Hnow, Hdate.
  destruct s as [|c s]; [done|]. rewrite Hparse.
  unfold try_except_ValueError, bind, ret.
  by destruct (create_daily_note nd (Some t) w) as [[v|e] w'].
Qed.

(** X17: with [--date], the handler of the rejected date also takes the
    failure to decode a note of the window, a [ValueError] too: when the
    notes of the window that cannot be read are all undecodable, [main]
    returns as if nothing had failed, and no note is written; when they all
    fail otherwise (the file may not be opened), the error comes out of
    [main]. *)
Theorem X17_main_date_decode_failure (nd : N → option Z) (df : pystr → bool)
    (a : args) (s : pystr) (t : date) (clock : list (date * Z)) (w : world)
    (undecodable : bool) :
  create_now a = false → date_arg a = Some s → strptime_Ymd nd s = Some t →
  entries w !! note_name t = None → 7 < toordinal t →
  Exists (λ n, note_text w n.2 = None) (window_notes nd w t) →
  Forall (λ n, note_text w n.2 = None → df n.2 = undecodable)
    (window_notes nd w t) →
  ∃ n w', same_fs w w'
    ∧ main nd df a clock w
      = if undecodable then (Ok PyNone, w') else (Raise (ReadError n), w').
Proof.
  intros Hnow Hdate Hparse Hnone Hord Hex Hdf.
  rewrite (main_date nd df a s t) by done.
  pose proof (strptime_valid _ _ _ Hparse) as Ht.
  destruct (create_unreadable nd w t Ht Hnone Hord)
    as (d & n & w' & -> & Hin & Htext & Hfs).
  { eapply Exists_impl; [exact Hex|]. intros x. by rewrite note_todos_None. }
  exists n, w'. split; [done|]. cbn [is_ValueError].
  rewrite Forall_forall in Hdf. pose proof (Hdf _ Hin Htext) as Hn.
  cbn [snd] in Hn. rewrite Hn. by destruct undecodable.
Qed.

Lemma X17_main_date_decode_failure_witness :
  ∃ n w',
    same_fs (dir_with [(py "2024-03-09.md", Unreadable)]) w'
    ∧ main no_unicode_digit (λ _, true) (mkargs false (Some (py "2024-03-10")))
        [] (dir_with [(py "2024-03-09.md", Unreadable)])
      = if true then (Ok PyNone, w') else (Raise (ReadError n), w').
Proof.
  apply (X17_main_date_decode_failure no_unicode_digit (λ _, true)
    (mkargs false (Some (py "2024-03-10"))) (py "2024-03-10") (mkdate 2024 3 10)
    [] (dir_with [(py "2024-03-09.md", Unreadable)]) true
    eq_refl eq_refl eq_refl eq_refl eq_refl).
  - apply Exists_exists. exists (mkdate 2024 3 9, py "2024-03-09.md").
    split; [vm_compute; apply list_elem_of_here|reflexivity].
  - apply Forall_forall. done.
Defined.

(** ** [create_daily_note] and [get_all_notes] *)

Lemma strftime_not_nil d : strftime_Ymd d ≠ [].
Proof.
  intros H%(f_equal length). unfold strftime_Ymd in H.
  rewrite length_app in H. cbn in H. lia.
Qed.

Lemma note_name_glob t : glob_md (note_name t) = true.
Proof. apply glob_md_spec. unfold note_name. eauto. Qed.

Lemma note_name_stem t : stem (note_name t) = strftime_Ymd t.
Proof. apply stem_md, strftime_not_nil. Qed.

Lemma re_digit_hyphen nd : re_digit nd HYPHEN = None.
Proof. done. Qed.

(** Before the year 1000 the text [strftime] gives has fewer than four
    digits of year, and [strptime] rejects it. *)
Lemma strptime_strftime_short nd t :
  year t < 1000 → strptime_Ymd nd (strftime_Ymd t) = None.
Proof.
  intros Hy. unfold strptime_Ymd, strptime_match, strftime_Ymd, year_text, re_Y.
  destruct (year t <? 10) eqn:E1;
    [|destruct (year t <? 100) eqn:E2;
        [|destruct (year t <? 1000) eqn:E3; [|apply Z.ltb_ge in E3; lia]]];
    cbn [app]; rewrite ?re_digit_hyphen;
    repeat (match goal with
            | |- context [re_digit nd (digit_char ?v)] =>
                destruct (re_digit nd (digit_char v)); cbn [mbind option_bind]
            end); done.
Qed.

(** X18: from the year 1000 on, the note a call generates is a note of the
    next scans: after a call that generates the note of [t],
    [get_all_notes] returns the note of [t] under the name it was written to,
    and besides it the notes it returned before, no other.  Before the year
    1000 the name written has fewer than four digits of year, which the scan
    does not read as a date: it returns the notes it returned before. *)
Theorem X18_generated_note_scanned (nd : N → option Z) (w w' : world)
    (t : date) :
  valid_date t → entries w !! note_name t = None →
  create_daily_note nd (Some t) w = (Ok PyNone, w') →
  ∃ before after,
    (get_all_notes nd w).1 = Ok before
    ∧ (get_all_notes nd w').1 = Ok after
    ∧ (1000 ≤ year t →
       ∀ d n, (d, n) ∈ after ↔ (d, n) = (t, note_name t) ∨ (d, n) ∈ before)
    ∧ (year t < 1000 → ∀ d n, (d, n) ∈ after ↔ (d, n) ∈ before).
Proof.
  intros Ht Hnone Hrun. exists (notes_of nd w), (notes_of nd w').
  split_and!; [done..| |];
    destruct (create_outcome nd w t _ w' Ht Hrun)
      as [(Hs & _ & _)|[(_ & [e ?] & _)
          |[(_ & _ & body & Heq & _)|(_ & ? & _)]]]; try done;
    try (rewrite Hnone in Hs; by destruct Hs).
  - intros Hy d n. rewrite !elem_of_notes_of, Heq.
    destruct (decide (n = note_name t)) as [->|Hn].
    + rewrite lookup_insert_eq, Hnone, note_name_stem, strptime_strftime by done.
      split.
      * intros (_ & _ & [= ->]). by left.
      * intros [[= ->]|([? ?] & _)]; [|done].
        split_and!; eauto using note_name_glob.
    + rewrite lookup_insert_ne by done. split; [by right|].
      intros [[= _ ?]|?]; done.
  - intros Hy d n. rewrite !elem_of_notes_of, Heq.
    destruct (decide (n = note_name t)) as [->|Hn].
    + rewrite lookup_insert_eq, Hnone, note_name_stem, strptime_strftime_short by done.
      split; [by intros (_ & _ & ?)|by intros ([??] & _)].
    + by rewrite lookup_insert_ne.
Qed.

Lemma X18_generated_note_scanned_witness :
  ∃ before after,
    (get_all_notes no_unicode_digit
       (dir_with [(py "2024-03-05.md", Text (unlines [py "- [ ] a"]))])).1
    = Ok before
    ∧ (get_all_notes no_unicode_digit
         (create_daily_note no_unicode_digit (Some (mkdate 2024 3 10))
            (dir_with [(py "2024-03-05.md", Text (unlines [py "- [ ] a"]))])).2).1
      = Ok after
    ∧ (∀ d n, (d, n) ∈ after ↔
         (d, n) = (mkdate 2024 3 10, note_name (mkdate 2024 3 10))
         ∨ (d, n) ∈ before).
Proof.
  destruct (X18_generated_note_scanned no_unicode_digit
    (dir_with [(py "2024-03-05.md", Text (unlines [py "- [ ] a"]))])
    (create_daily_note no_unicode_digit (Some (mkdate 2024 3 10))
       (dir_with [(py "2024-03-05.md", Text (unlines [py "- [ ] a"]))])).2
    (mkdate 2024 3 10) eq_refl eq_refl) as (before & after & H1 & H2 & H3 & _).
  { vm_compute. reflexivity. }
  exists before, after. split_and!; [exact H1|exact H2|].
  apply H3. vm_compute. discriminate.
Defined.

(** ** The texts [strptime] reads *)

Lemma orelse_Some {A} (x y : option A) r :
  orelse x y = Some r ↔ x = Some r ∨ (x = None ∧ y = Some r).
Proof. destruct x; cbn; split; [eauto| |eauto|]; intros [?|[? ?]]; congruence. Qed.

Lemma re_two_Some {R} c1 c2 s (k : Z → pystr → option R) r :
  re_two c1 c2 s k = Some r ↔
  ∃ a b rest va vb, s = a :: b :: rest ∧ c1 a = Some va ∧ c2 b = Some vb
    ∧ k (va * 10 + vb) rest = Some r.
Proof.
  unfold re_two. split.
  - destruct s as [|a [|b rest]]; [done..|].
    destruct (c1 a) as [va|] eqn:Ea; [|done]. cbn.
    destruct (c2 b) as [vb|] eqn:Eb; [|done]. cbn. eauto 10.
  - intros (a & b & rest & va & vb & -> & -> & -> & Hk). done.
Qed.

Lemma re_one_Some {R} c1 s (k : Z → pystr → option R) r :
  re_one c1 s k = Some r ↔
  ∃ a rest va, s = a :: rest ∧ c1 a = Some va ∧ k va rest = Some r.
Proof.
  unfold re_one. split.
  - destruct s as [|a rest]; [done|].
    destruct (c1 a) as [va|] eqn:Ea; [|done]. cbn. eauto 10.
  - intros (a & rest & va & -> & -> & Hk). done.
Qed.

Lemma re_space_one_Some {R} c1 s (k : Z → pystr → option R) r :
  re_space_one c1 s k = Some r ↔
  ∃ b rest vb, s = SPACE :: b :: rest ∧ c1 b = Some vb ∧ k vb rest = Some r.
Proof.
  unfold re_space_one. split.
  - destruct s as [|a [|b rest]]; [done..|].
    destruct (N.eqb_spec a SPACE) as [->|]; [|done].
    destruct (c1 b) as [vb|] eqn:Eb; [|done]. cbn. eauto 10.
  - intros (b & rest & vb & -> & -> & Hk). done.
Qed.

Lemma ascii_digit_Some lo hi c v :
  ascii_digit lo hi c = Some v ↔ (lo ≤ c ≤ hi)%N ∧ v = Z.of_N c - 48.
Proof.
  unfold ascii_digit, in_range.
  destruct (N.leb_spec lo c), (N.leb_spec c hi); cbn; split;
    try (intros [= <-]; split; [lia|done]); try done; try (intros [? ->]; done || lia).
Qed.

Lemma ascii_digit_None lo hi c :
  ascii_digit lo hi c = None ↔ ¬ (lo ≤ c ≤ hi)%N.
Proof.
  unfold ascii_digit, in_range.
  destruct (N.leb_spec lo c), (N.leb_spec c hi); cbn; split; try done; lia.
Qed.

Lemma re_digit_ascii nd lo hi c v :
  (48 ≤ lo)%N → (hi ≤ 57)%N → ascii_digit lo hi c = Some v → re_digit nd c = Some v.
Proof.
  intros Hlo Hhi [Hc ->]%ascii_digit_Some. unfold re_digit, in_range.
  destruct (N.leb_spec 48 c), (N.leb_spec c 57); cbn; done || lia.
Qed.

Lemma re_digit_not_hyphen nd c v : re_digit nd c = Some v → c ≠ HYPHEN.
Proof. by intros H ->. Qed.

(** The month, then a hyphen: what [re_m] gives to the rest of the pattern
    when the rest does not match after another reading of the month. *)
Lemma re_m_Some {R} s (k : Z → pystr → option R) r :
  re_m s k = Some r →
  ∃ ms m rest, s = ms ++ rest ∧ spec_month_text m ms ∧ k m rest = Some r.
Proof.
  unfold re_m. rewrite !orelse_Some, !re_two_Some, re_one_Some.
  intros [(a & b & rest & va & vb & -> & Ha & Hb & Hk)
         |[_ [(a & b & rest & va & vb & -> & Ha & Hb & Hk)
             |[_ (a & rest & va & -> & Ha & Hk)]]]].
  - apply ascii_digit_Some in Ha as [Ha ->].
    assert (a = 49%N) as -> by lia.
    exists [49%N; b], (10 + vb), rest. split_and!; [done| |done].
    left. eauto.
  - apply ascii_digit_Some in Ha as [Ha ->].
    assert (a = 48%N) as -> by lia.
    exists [48%N; b], vb, rest. split_and!; [done| |done].
    right; left. eauto.
  - exists [a], va, rest. split_and!; [done| |done].
    right; right. eauto.
Qed.

Lemma re_d_Some {R} nd s (k : Z → pystr → option R) r :
  re_d nd s k = Some r →
  ∃ ds d rest, s = ds ++ rest ∧ spec_day_text nd d ds ∧ k d rest = Some r.
Proof.
  unfold re_d. rewrite !orelse_Some, !re_two_Some, re_one_Some, re_space_one_Some.
  intros [(a & b & rest & va & vb & -> & Ha & Hb & Hk)
         |[_ [(a & b & rest & va & vb & -> & Ha & Hb & Hk)
         |[_ [(a & b & rest & va & vb & -> & Ha & Hb & Hk)
         |[_ [(a & rest & va & -> & Ha & Hk)
             |[_ (b & rest & vb & -> & Hb & Hk)]]]]]]]].
  - apply ascii_digit_Some in Ha as [Ha ->].
    assert (a = 51%N) as -> by lia.
    exists [51%N; b], (30 + vb), rest. split_and!; [done| |done].
    left. eauto.
  - exists [a; b], (va * 10 + vb), rest. split_and!; [done| |done].
    right; left. eauto 10.
  - apply ascii_digit_Some in Ha as [Ha ->].
    assert (a = 48%N) as -> by lia.
    exists [48%N; b], vb, rest. split_and!; [done| |done].
    do 2 right; left. eauto.
  - exists [a], va, rest. split_and!; [done| |done].
    do 3 right; left. eauto.
  - exists [SPACE; b], vb, rest. split_and!; [done| |done].
    do 4 right. eauto.
Qed.

Ltac class_eval :=
  repeat match goal with
  | |- context [ascii_digit ?lo ?hi ?c] =>
      first
        [ rewrite (proj2 (ascii_digit_None lo hi c)) by lia
        | rewrite (proj2 (ascii_digit_Some lo hi c (Z.of_N c - 48)))
            by (split; [lia|done]) ]
  | |- context [N.eqb ?a ?b] =>
      destruct (N.eqb_spec a b); [try lia|try lia]
  end.

(** The matcher on a text of the grammar: the classes are evaluated from
    the ranges of the characters, and the alternatives that are left
    undecided fail on the character that follows. *)
Ltac run_matcher :=
  unfold re_m, re_d, re_two, re_one, re_space_one, orelse, re_hyphen,
    HYPHEN, SPACE in *;
  cbn [app]; class_eval; cbn [mbind option_bind];
  repeat match goal with
  | |- context [ascii_digit ?lo ?hi ?c] =>
      destruct (ascii_digit lo hi c); cbn [mbind option_bind]
  end.

Lemma re_m_complete {R} m ms rest (K : Z → pystr → option R) :
  spec_month_text m ms →
  re_m (ms ++ HYPHEN :: rest) (λ m s, s ← re_hyphen s; K m s) = K m rest.
Proof.
  intros [(c & v & -> & [Hc ->]%ascii_digit_Some & ->)
         |[(c & -> & [Hc ->]%ascii_digit_Some)
          |(c & -> & [Hc ->]%ascii_digit_Some)]];
    run_matcher; cbn; by destruct (K _ rest).
Qed.

Lemma re_d_complete {R} nd d ds (g : Z → pystr → R) :
  spec_day_text nd d ds →
  re_d nd ds (λ d s, Some (g d s)) = Some (g d []).
Proof.
  intros [(c & v & -> & [Hc ->]%ascii_digit_Some & ->)
         |[(c1 & c2 & v1 & v2 & -> & [Hc ->]%ascii_digit_Some & Hv2 & ->)
         |[(c & -> & [Hc ->]%ascii_digit_Some)
         |[(c & -> & [Hc ->]%ascii_digit_Some)
          |(c & -> & [Hc ->]%ascii_digit_Some)]]]];
    run_matcher; rewrite ?Hv2; cbn; done.
Qed.

Lemma re_hyphen_cons c rest :
  re_hyphen (c :: rest) = if N.eqb c HYPHEN then Some rest else None.
Proof. done. Qed.

Lemma re_Y_Some nd s y rest :
  re_Y nd s = Some (y, rest) ↔
  ∃ ys, s = ys ++ rest ∧ spec_year_text nd y ys.
Proof.
  unfold re_Y, spec_year_text. split.
  - destruct s as [|c1 [|c2 [|c3 [|c4 s]]]]; [done..|].
    destruct (re_digit nd c1) as [v1|] eqn:E1; [|done].
    destruct (re_digit nd c2) as [v2|] eqn:E2; [|done].
    destruct (re_digit nd c3) as [v3|] eqn:E3; [|done].
    destruct (re_digit nd c4) as [v4|] eqn:E4; [|done].
    cbn. intros [= <- <-]. exists [c1; c2; c3; c4]. split; [done|].
    by exists c1, c2, c3, c4, v1, v2, v3, v4.
  - intros (ys & -> & c1 & c2 & c3 & c4 & v1 & v2 & v3 & v4
            & -> & E1 & E2 & E3 & E4 & ->).
    cbn [app]. by rewrite E1, E2, E3, E4.
Qed.

(** The texts [strptime] reads as the date [d] are the texts of [d] of the
    grammar, when [d] is a date of the calendar. *)
Lemma strptime_Ymd_spec nd s d :
  strptime_Ymd nd s = Some d ↔ valid_date d ∧ spec_date_text nd d s.
Proof.
  unfold strptime_Ymd, strptime_match, re_md, spec_date_text. split.
  - destruct (re_Y nd s) as [[y s1]|] eqn:EY; [|done]. cbn.
    apply re_Y_Some in EY as (ys & -> & Hys).
    destruct s1 as [|h s2]; [done|]. rewrite re_hyphen_cons.
    destruct (N.eqb_spec h HYPHEN) as [->|]; [|done]. cbn.
    destruct (re_m s2 _) as [[[m dd] rest]|] eqn:EM; [|done]. cbn.
    apply re_m_Some in EM as (ms & m' & s3 & -> & Hms & EM).
    destruct s3 as [|h s4]; [done|]. rewrite re_hyphen_cons in EM.
    destruct (N.eqb_spec h HYPHEN) as [->|]; [|done]. cbn in EM.
    apply re_d_Some in EM as (ds & d' & s5 & -> & Hds & [= -> -> ->]).
    destruct rest; [|done]. destruct (valid_dateb y m dd) eqn:Hv; [|done].
    intros [= <-]. split; [done|]. exists ys, ms, ds. cbn [year month day].
    by rewrite app_nil_r.
  - intros (Hv & ys & ms & ds & -> & Hys & Hms & Hds).
    rewrite (proj2 (re_Y_Some nd _ (year d) ([HYPHEN] ++ ms ++ [HYPHEN] ++ ds)))
      by eauto.
    cbn [mbind option_bind app]. rewrite re_hyphen_cons, N.eqb_refl.
    cbn [mbind option_bind].
    rewrite (re_m_complete (month d) ms ds) by done.
    rewrite (re_d_complete nd (day d) ds) by done.
    cbn [mbind option_bind]. unfold valid_date in Hv. rewrite Hv.
    by destruct d.
Qed.

Lemma spec_date_text_no_dot nd d s :
  spec_date_text nd d s → (DOT ∉ s) ∧ s ≠ [].
Proof.
  assert (∀ c v, re_digit nd c = Some v → c ≠ DOT) as Hdigit.
  { by intros c v H ->. }
  assert (∀ lo hi c v, ascii_digit lo hi c = Some v → (48 ≤ lo)%N → c ≠ DOT)
    as Hascii.
  { intros lo hi c v [Hc _]%ascii_digit_Some Hlo ->. unfold DOT in Hc. lia. }
  intros (ys & ms & ds & -> & (c1 & c2 & c3 & c4 & v1 & v2 & v3 & v4
            & -> & E1 & E2 & E3 & E4 & _) & Hms & Hds).
  split; [|done]. rewrite !elem_of_app, !elem_of_cons, elem_of_nil.
  intros [[?|[?|[?|[?|[]]]]]|[[?|[]]|[Hin|[[?|[]]|Hin]]]]; subst; try done;
    try (by eapply Hdigit).
  - destruct Hms as [(c & v & -> & E & _)|[(c & -> & E)|(c & -> & E)]];
      rewrite !elem_of_cons, elem_of_nil in Hin;
      destruct Hin as [?|[?|[]]] || destruct Hin as [?|[]]; subst; try done;
      by eapply Hascii.
  - destruct Hds as [(c & v & -> & E & _)
                    |[(c & c' & v & v' & -> & E & E' & _)
                    |[(c & -> & E)|[(c & -> & E)|(c & -> & E)]]]];
      rewrite !elem_of_cons, elem_of_nil in Hin;
      destruct Hin as [?|[?|[]]] || destruct Hin as [?|[]]; subst; try done;
      try (by eapply Hascii); by eapply Hdigit.
Qed.

(** The zero-padded text and the unpadded text of a date of the calendar
    are texts of the grammar. *)
Lemma spec_date_text_padded nd d : valid_date d → spec_date_text nd d (padded_Ymd d).
Proof. intros Hd. by apply (strptime_Ymd_spec nd), strptime_padded. Qed.

Lemma spec_date_text_unpadded nd d :
  valid_date d → spec_date_text nd d (unpadded_Ymd d).
Proof. intros Hd. by apply (strptime_Ymd_spec nd), strptime_unpadded. Qed.

(** C4, amended: the scan never fails and only lists the directory; it
    returns exactly the entries named by a text of a date and [.md], in
    ascending order of date (and of path within a date), each once.  The
    texts of a date of the calendar are the four decimal digits of its
    year, a hyphen, its month on two digits or, from 1 to 9, on one, a hyphen,
    and its day on two digits or, from 1 to 9, on one digit or on a space and
    one digit: they are the zero-padded text, the text without the leading
    zeros of the month and the day, and the texts between.  They are the
    stems [strptime] reads with the format [%Y-%m-%d]; an entry with any
    other stem is skipped and is not in the result. *)
Theorem C4_scan_filters_by_strptime (nd : N → option Z) (w : world) :
  ∃ notes,
    get_all_notes nd w = (Ok notes, log EvGlob w)
    ∧ (∀ d n, (d, n) ∈ notes ↔
         is_Some (entries w !! n) ∧ glob_md n = true
         ∧ strptime_Ymd nd (stem n) = Some d)
    ∧ (∀ d n, (d, n) ∈ notes ↔
         ∃ s, n = s ++ py ".md" ∧ is_Some (entries w !! n)
           ∧ valid_date d ∧ spec_date_text nd d s)
    ∧ NoDup notes
    ∧ StronglySorted (λ a b, date_leb a.1 b.1 = true) notes
    ∧ StronglySorted note_le notes
    ∧ (∀ d, valid_date d → strptime_Ymd nd (padded_Ymd d) = Some d)
    ∧ (∀ d, valid_date d →
         spec_date_text nd d (padded_Ymd d)
         ∧ spec_date_text nd d (unpadded_Ymd d)).
Proof.
  exists (notes_of nd w). split_and!.
  - apply get_all_notes_run.
  - apply elem_of_notes_of.
  - intros d n. rewrite elem_of_notes_of, strptime_Ymd_spec.
    change (py ".md") with MD_SUFFIX. split.
    + intros (Hex & Hglob & Hd & Hs).
      exists (stem n). split_and!; try done.
      apply glob_md_stem; [done|]. by eapply spec_date_text_no_dot.
    + intros (s & -> & Hex & Hd & Hs).
      destruct (spec_date_text_no_dot _ _ _ Hs) as [_ Hne].
      rewrite stem_md by done. split_and!; try done.
      apply glob_md_spec. eauto.
  - apply NoDup_notes_of.
  - eapply StronglySorted_impl; [|apply notes_of_sorted].
    intros a b. apply note_le_date.
  - apply notes_of_sorted.
  - intros d. apply strptime_padded.
  - intros d Hd. split;
      [by apply spec_date_text_padded|by apply spec_date_text_unpadded].
Qed.
